(** * TLVData.h: TLV record views, the TLV record reader and the record builder

    A shallow embedding of [Packet++/header/TLVData.h] (namespace [pcpp]):
    the [TLVRecord] wrapper, the [TLVRecordReader] template and the
    [TLVRecordBuilder] base class.

    Conventions of the embedding (an LP64 target):
    - a pointer is an address, a [Z] in [0, 2^64); [NULL] is address 0;
    - [size_t] is a [Z] in [0, 2^64) with wrap-around written out, [int] is a
      32-bit two's complement integer, [ptrdiff_t] a 64-bit one;
    - memory is a partial map from addresses to bytes; an access to an
      unmapped address is undefined behaviour, reported as [Fault];
    - the two pure virtual methods [getTotalSize] and [getDataSize] are the
      methods of a type class, one instance per protocol;
    - [memcpy] into a scalar reads it least significant byte first;
    - the [while] loops of the reader take a bound on their iterations. *)

From Stdlib Require Import ZArith List Lia Bool.
Import ListNotations.
Local Open Scope Z_scope.

(** ** Machine integers *)

Module Machine.

Definition SIZE_BITS : Z := 64.
Definition INT_BITS : Z := 32.

Definition SIZE_MOD : Z := 2 ^ SIZE_BITS.
Definition SIZE_MAX : Z := SIZE_MOD - 1.
Definition INT_MAX : Z := 2 ^ (INT_BITS - 1) - 1.
Definition INT_MIN : Z := - 2 ^ (INT_BITS - 1).

(** Conversion to an unsigned type of [bits] bits. *)
Definition to_unsigned (bits x : Z) : Z := x mod 2 ^ bits.

(** Conversion to a signed type of [bits] bits (two's complement). *)
Definition to_signed (bits x : Z) : Z :=
  let m := x mod 2 ^ bits in
  if m <? 2 ^ (bits - 1) then m else m - 2 ^ bits.

Definition to_size_t : Z -> Z := to_unsigned SIZE_BITS.
Definition to_int : Z -> Z := to_signed INT_BITS.
Definition to_ptrdiff : Z -> Z := to_signed SIZE_BITS.

Definition PTRDIFF_MAX : Z := 2 ^ (SIZE_BITS - 1) - 1.

Definition is_size_t (x : Z) : Prop := 0 <= x <= SIZE_MAX.
Definition is_int (x : Z) : Prop := INT_MIN <= x <= INT_MAX.

(** [p + n] on a byte pointer. *)
Definition ptr_add (p n : Z) : Z := to_size_t (p + n).

(** [p - q] on byte pointers, a [ptrdiff_t]. *)
Definition ptr_diff (p q : Z) : Z := to_ptrdiff (p - q).

End Machine.
Import Machine.

(** ** Memory and outcomes *)

Definition NULL : Z := 0.

(** Byte-addressed memory: [mem p = Some b] when address [p] is mapped and
    holds the byte [b]. *)
Definition Memory : Type := Z -> option Z.

(** The bytes [bytes] laid out from address [base] on, nothing else mapped. *)
Definition mem_of_bytes (base : Z) (bytes : list Z) : Memory :=
  fun p =>
    if (base <=? p) && (p <? base + Z.of_nat (length bytes))
    then nth_error bytes (Z.to_nat (p - base))
    else None.

Inductive outcome (A : Type) : Type :=
| Done (a : A)        (* the call returns [a] *)
| Fault (p : Z)       (* undefined behaviour: access to the unmapped address [p] *)
| OutOfFuel.          (* the iteration bound of a loop was reached *)
Arguments Done {A} a.
Arguments Fault {A} p.
Arguments OutOfFuel {A}.

Definition bind {A B : Type} (m : outcome A) (k : A -> outcome B) : outcome B :=
  match m with
  | Done a => k a
  | Fault p => Fault p
  | OutOfFuel => OutOfFuel
  end.

Notation "x <- m ;; k" := (bind m (fun x => k))
  (at level 61, m at next level, right associativity).

Definition load (mem : Memory) (p : Z) : outcome Z :=
  match mem p with
  | Some b => Done b
  | None => Fault p
  end.

(** [memcpy] out of memory: the [n] bytes from address [p] on. *)
Fixpoint load_bytes (mem : Memory) (p : Z) (n : nat) : outcome (list Z) :=
  match n with
  | O => Done []
  | S n' =>
      b <- load mem p ;;
      bs <- load_bytes mem (p + 1) n' ;;
      Done (b :: bs)
  end.

(** ** TLVRecord *)

(** Offsets of the fields of [TLVRawData]. *)
Definition OFFSET_recordType : Z := 0.
Definition OFFSET_recordLen : Z := 1.
Definition OFFSET_recordValue : Z := 2.

Record TLVRecord : Type := { m_Data : Z }.

(** [TLVRecord(uint8_t* recordRawData)] *)
Definition TLVRecord_ctor (recordRawData : Z) : TLVRecord :=
  if recordRawData =? NULL
  then {| m_Data := NULL |}
  else {| m_Data := recordRawData |}.

Definition isNull (r : TLVRecord) : bool := m_Data r =? NULL.

Definition getRecordBasePtr (r : TLVRecord) : Z := m_Data r.

(** [getType() { return m_Data->recordType; }] *)
Definition getType (mem : Memory) (r : TLVRecord) : outcome Z :=
  load mem (m_Data r + OFFSET_recordType).

(** [getValue() { return m_Data->recordValue; }] *)
Definition getValue (r : TLVRecord) : Z := m_Data r + OFFSET_recordValue.

(** [TLVRecord(const TLVRecord& other)] *)
Definition TLVRecord_copy (other : TLVRecord) : TLVRecord :=
  {| m_Data := m_Data other |}.

(** [operator=(const TLVRecord& other)] *)
Definition TLVRecord_assign (this other : TLVRecord) : TLVRecord :=
  {| m_Data := m_Data other |}.

(** The free store: the addresses of the live allocations. *)
Definition Heap : Type := list Z.

(** [delete p]: the allocation at [p] is released; undefined behaviour when
    [p] is not a live allocation. *)
Definition delete (h : Heap) (p : Z) : outcome Heap :=
  if existsb (Z.eqb p) h
  then Done (filter (fun q => negb (q =? p)) h)
  else Fault p.

(** [purgeRecordData() { if (!isNull()) delete m_Data; }]; the record itself
    is left as it is. *)
Definition purgeRecordData (r : TLVRecord) (h : Heap) : outcome Heap :=
  if negb (isNull r) then delete h (m_Data r) else Done h.

(** The pure virtual methods, implemented per protocol. *)
Class TLVRecordType : Type := {
  getTotalSize : Memory -> TLVRecord -> Z;
  getDataSize : Memory -> TLVRecord -> Z
}.

(** The fixed-width integer types that [getValueAs<T>] is used at; [int] is
    [Int32]. *)
Inductive ScalarType : Type :=
| UInt8 | Int8 | UInt16 | Int16 | UInt32 | Int32 | UInt64 | Int64.

(** [sizeof(T)] *)
Definition sizeof (T : ScalarType) : nat :=
  match T with
  | UInt8 | Int8 => 1
  | UInt16 | Int16 => 2
  | UInt32 | Int32 => 4
  | UInt64 | Int64 => 8
  end.

Definition is_signed (T : ScalarType) : bool :=
  match T with
  | Int8 | Int16 | Int32 | Int64 => true
  | UInt8 | UInt16 | UInt32 | UInt64 => false
  end.

Definition bits (T : ScalarType) : Z := 8 * Z.of_nat (sizeof T).

(** The values of [T]. *)
Definition in_range (T : ScalarType) (v : Z) : Prop :=
  if is_signed T
  then - 2 ^ (bits T - 1) <= v < 2 ^ (bits T - 1)
  else 0 <= v < 2 ^ bits T.

(** The number written by [bytes], least significant byte first. *)
Fixpoint le_combine (bytes : list Z) : Z :=
  match bytes with
  | [] => 0
  | b :: bs => b + 256 * le_combine bs
  end.

(** The value of type [T] whose object representation is [bytes]: the bytes
    least significant first, in two's complement when [T] is signed. *)
Definition of_bytes (T : ScalarType) (bytes : list Z) : Z :=
  if is_signed T
  then to_signed (bits T) (le_combine bytes)
  else le_combine bytes.

Section Reader.

Context {V : TLVRecordType}.
Variable mem : Memory.

(** [template<typename T> T getValueAs()]: [memcpy] fills the object
    representation of [result] with the first [sizeof(T)] value bytes. *)
Definition getValueAs (T : ScalarType) (r : TLVRecord) : outcome Z :=
  if to_size_t (getDataSize mem r) <? Z.of_nat (sizeof T)
  then Done 0
  else
    result <- load_bytes mem (getValue r) (sizeof T) ;;
    Done (of_bytes T result).

(** ** TLVRecordReader *)

Record TLVRecordReader : Type := { m_RecordCount : Z }.

(** [(size_t)-1], the value of [m_RecordCount] before any count. *)
Definition NO_COUNT : Z := to_size_t (-1).

Definition TLVRecordReader_ctor : TLVRecordReader :=
  {| m_RecordCount := NO_COUNT |}.

Definition getFirstTLVRecord (tlvDataBasePtr tlvDataLen : Z) : TLVRecord :=
  if tlvDataLen =? 0
  then TLVRecord_ctor NULL
  else TLVRecord_ctor tlvDataBasePtr.

(** The second test of [getNextTLVRecord]: a [ptrdiff_t] plus an [int],
    compared with an [int].  The sum is a [ptrdiff_t]; it wraps around where
    C leaves the overflow undefined. *)
Definition next_out_of_bounds (record : TLVRecord)
           (tlvDataBasePtr tlvDataLen : Z) : bool :=
  to_ptrdiff (ptr_diff (getRecordBasePtr record) tlvDataBasePtr
              + to_int (getTotalSize mem record))
  >=? to_int tlvDataLen.

Definition getNextTLVRecord (record : TLVRecord)
           (tlvDataBasePtr tlvDataLen : Z) : TLVRecord :=
  if isNull record then TLVRecord_ctor NULL
  else if ptr_diff (getRecordBasePtr record) tlvDataBasePtr <? 0
  then TLVRecord_ctor NULL
  else if next_out_of_bounds record tlvDataBasePtr tlvDataLen
  then TLVRecord_ctor NULL
  else TLVRecord_ctor
         (ptr_add (getRecordBasePtr record) (to_size_t (getTotalSize mem record))).

(** The loop of [getTLVRecord], at most [fuel] iterations. *)
Fixpoint getTLVRecord_loop (fuel : nat) (recordType : Z) (curRec : TLVRecord)
         (tlvDataBasePtr tlvDataLen : Z) : outcome TLVRecord :=
  if isNull curRec then Done (TLVRecord_ctor NULL)
  else
    match fuel with
    | O => OutOfFuel
    | S fuel' =>
        t <- getType mem curRec ;;
        if t =? recordType then Done curRec
        else getTLVRecord_loop fuel' recordType
               (getNextTLVRecord curRec tlvDataBasePtr tlvDataLen)
               tlvDataBasePtr tlvDataLen
    end.

Definition getTLVRecord (fuel : nat) (recordType tlvDataBasePtr tlvDataLen : Z)
  : outcome TLVRecord :=
  getTLVRecord_loop fuel recordType
    (getFirstTLVRecord tlvDataBasePtr tlvDataLen) tlvDataBasePtr tlvDataLen.

(** The loop of [getTLVRecordCount], at most [fuel] iterations; the reader
    is threaded through it. *)
Fixpoint getTLVRecordCount_loop (fuel : nat) (this : TLVRecordReader)
         (curRec : TLVRecord) (tlvDataBasePtr tlvDataLen : Z)
  : outcome TLVRecordReader :=
  if isNull curRec then Done this
  else
    match fuel with
    | O => OutOfFuel
    | S fuel' =>
        getTLVRecordCount_loop fuel'
          {| m_RecordCount := to_size_t (m_RecordCount this + 1) |}
          (getNextTLVRecord curRec tlvDataBasePtr tlvDataLen)
          tlvDataBasePtr tlvDataLen
    end.

(** Returns the count and the reader after the call. *)
Definition getTLVRecordCount (fuel : nat) (this : TLVRecordReader)
           (tlvDataBasePtr tlvDataLen : Z) : outcome (Z * TLVRecordReader) :=
  if negb (m_RecordCount this =? NO_COUNT)
  then Done (m_RecordCount this, this)
  else
    this' <- getTLVRecordCount_loop fuel {| m_RecordCount := 0 |}
               (getFirstTLVRecord tlvDataBasePtr tlvDataLen)
               tlvDataBasePtr tlvDataLen ;;
    Done (m_RecordCount this', this').

(** [changedBy] is an [int]; [m_RecordCount += changedBy] converts it to
    [size_t] first. *)
Definition changeTLVRecordCount (changedBy : Z) (this : TLVRecordReader)
  : TLVRecordReader :=
  if negb (m_RecordCount this =? NO_COUNT)
  then {| m_RecordCount :=
            to_size_t (m_RecordCount this + to_size_t (to_int changedBy)) |}
  else this.

(** The view reached after [n] calls of [getNextTLVRecord], from the first
    record on. *)
Fixpoint nth_view (n : nat) (tlvDataBasePtr tlvDataLen : Z) : TLVRecord :=
  match n with
  | O => getFirstTLVRecord tlvDataBasePtr tlvDataLen
  | S n' => getNextTLVRecord (nth_view n' tlvDataBasePtr tlvDataLen)
              tlvDataBasePtr tlvDataLen
  end.

(** The traversal ends after [n] views: the first [n] are not null, the next
    one is. *)
Definition ends_after (n : nat) (tlvDataBasePtr tlvDataLen : Z) : Prop :=
  isNull (nth_view n tlvDataBasePtr tlvDataLen) = true /\
  forall i, (i < n)%nat -> isNull (nth_view i tlvDataBasePtr tlvDataLen) = false.

(** None of the first [n] views is null or has the type [recordType]. *)
Definition mismatches_before (recordType : Z) (n : nat)
           (tlvDataBasePtr tlvDataLen : Z) : Prop :=
  forall i, (i < n)%nat ->
    isNull (nth_view i tlvDataBasePtr tlvDataLen) = false /\
    exists t, getType mem (nth_view i tlvDataBasePtr tlvDataLen) = Done t /\
              t <> recordType.

End Reader.

(** ** Two protocols *)

(** The length byte of a record, 0 when it is not mapped. *)
Definition recordLen (mem : Memory) (r : TLVRecord) : Z :=
  match mem (m_Data r + OFFSET_recordLen) with
  | Some b => b
  | None => 0
  end.

(** A protocol whose length field counts the value bytes only: a record is
    its two header bytes followed by [recordLen] value bytes. *)
Definition ValueLenTLV : TLVRecordType :=
  {| getTotalSize := fun mem r => 2 + recordLen mem r;
     getDataSize := fun mem r => recordLen mem r |}.

(** A protocol that reports the same total size for every record. *)
Definition FixedSizeTLV (total : Z) : TLVRecordType :=
  {| getTotalSize := fun _ _ => total;
     getDataSize := fun _ _ => to_size_t (total - 2) |}.

(** The buffer of the end-to-end example: tag 3 with four value bytes, then
    tag 1 with none. *)
Definition example_base : Z := 4096.
Definition example_bytes : list Z := [3; 4; 170; 187; 204; 221; 1; 0].
Definition example_mem : Memory := mem_of_bytes example_base example_bytes.

(** Four records with empty values and the tags 5, 9, 9, 2. *)
Definition tags_bytes : list Z := [5; 0; 9; 0; 9; 0; 2; 0].
Definition tags_mem : Memory := mem_of_bytes example_base tags_bytes.

(** A buffer of 2 GiB that starts with the bytes of the end-to-end example
    and is zero from there on. *)
Definition large_len : Z := 2 ^ 31.
Definition large_mem : Memory :=
  fun p =>
    if (example_base <=? p) && (p <? example_base + large_len)
    then Some (nth (Z.to_nat (p - example_base)) example_bytes 0)
    else None.

(** One record with the tag 7 and the two value bytes of the text hi. *)
Definition hi_bytes : list Z := [7; 2; 104; 105].
Definition hi_mem : Memory := mem_of_bytes example_base hi_bytes.

(** One record with the tag 9 and four value bytes FF. *)
Definition ff_bytes : list Z := [9; 4; 255; 255; 255; 255].
Definition ff_mem : Memory := mem_of_bytes example_base ff_bytes.

(** A memory whose address 0 is mapped. *)
Definition low_mem : Memory := mem_of_bytes NULL [7; 0].

(** ** TLVRecordBuilder *)

Module Builder.

(** Modelled from the spec: the error of a construction whose value does not
    fit the one-byte length; the header has no error type. *)
Inductive BuildError : Type := ValueTooLarge.

Record TLVRecordBuilder : Type := {
  m_RecValue : list Z;
  m_RecValueLen : Z;
  m_RecType : Z
}.

Definition to_uint8 : Z -> Z := to_unsigned 8.

(** A call through the parameters that the header declares for [init] and
    for the raw constructor, [(uint8_t recType, const uint8_t* recValue,
    uint8_t recValueLen)]: the arguments for the two [uint8_t] parameters are
    converted to [uint8_t]; [recValue] stands for the bytes behind the
    pointer. *)
Definition call_raw {A : Type} (body : Z -> list Z -> Z -> A)
           (recType : Z) (recValue : list Z) (recValueLen : Z) : A :=
  body (to_uint8 recType) recValue (to_uint8 recValueLen).

(** Modelled from the spec: the body of [init], which the header declares and
    does not define.  A length of more than 255 fails with [ValueTooLarge];
    otherwise the first [recValueLen] bytes of the value are copied and
    stored with the tag and the length. *)
Definition init_body (recType : Z) (recValue : list Z) (recValueLen : Z)
  : BuildError + TLVRecordBuilder :=
  if 255 <? recValueLen
  then inl ValueTooLarge
  else inr {| m_RecValue := firstn (Z.to_nat recValueLen) recValue;
              m_RecValueLen := to_uint8 recValueLen;
              m_RecType := to_uint8 recType |}.

(** [init(uint8_t recType, const uint8_t* recValue, uint8_t recValueLen)] *)
Definition init : Z -> list Z -> Z -> BuildError + TLVRecordBuilder :=
  call_raw init_body.

End Builder.

(** * Properties *)

(** ** Machine integers *)

Lemma SIZE_MOD_eq : SIZE_MOD = 18446744073709551616.
Proof. reflexivity. Qed.

Lemma NO_COUNT_eq : NO_COUNT = SIZE_MAX.
Proof. reflexivity. Qed.

Lemma to_size_t_range (x : Z) : 0 <= to_size_t x < SIZE_MOD.
Proof.
  unfold to_size_t, to_unsigned. apply Z.mod_pos_bound. reflexivity.
Qed.

Lemma to_size_t_id (x : Z) : is_size_t x -> to_size_t x = x.
Proof.
  unfold is_size_t, SIZE_MAX, to_size_t, to_unsigned. intros H.
  apply Z.mod_small. fold SIZE_MOD. lia.
Qed.

Lemma to_size_t_idem (x : Z) : to_size_t (to_size_t x) = to_size_t x.
Proof.
  apply to_size_t_id. pose proof (to_size_t_range x).
  unfold is_size_t, SIZE_MAX. lia.
Qed.

Lemma to_size_t_add_r (x y : Z) : to_size_t (x + to_size_t y) = to_size_t (x + y).
Proof.
  unfold to_size_t, to_unsigned. apply Zplus_mod_idemp_r.
Qed.

Lemma to_signed_range (bits x : Z) :
  0 < bits -> - 2 ^ (bits - 1) <= to_signed bits x < 2 ^ (bits - 1).
Proof.
  intros Hb. unfold to_signed.
  assert (Hp : 2 ^ bits = 2 * 2 ^ (bits - 1)).
  { rewrite <- Z.pow_succ_r by lia. f_equal. lia. }
  assert (H0 : 0 < 2 ^ (bits - 1)) by (apply Z.pow_pos_nonneg; lia).
  pose proof (Z.mod_pos_bound x (2 ^ bits)) as Hm.
  cbv zeta. destruct (Z.ltb_spec (x mod 2 ^ bits) (2 ^ (bits - 1))); lia.
Qed.

Lemma to_signed_id (bits x : Z) :
  0 < bits -> - 2 ^ (bits - 1) <= x < 2 ^ (bits - 1) -> to_signed bits x = x.
Proof.
  intros Hb Hx. unfold to_signed.
  assert (Hp : 2 ^ bits = 2 * 2 ^ (bits - 1)).
  { rewrite <- Z.pow_succ_r by lia. f_equal. lia. }
  destruct (Z_lt_le_dec x 0) as [Hneg | Hpos].
  - assert (Hm : x mod 2 ^ bits = x + 2 ^ bits).
    { symmetry. apply Z.mod_unique with (q := -1); lia. }
    cbv zeta. rewrite Hm.
    destruct (Z.ltb_spec (x + 2 ^ bits) (2 ^ (bits - 1))); lia.
  - rewrite Z.mod_small by lia. cbv zeta.
    destruct (Z.ltb_spec x (2 ^ (bits - 1))); lia.
Qed.

Lemma to_signed_congr (bits x : Z) :
  exists k : Z, to_signed bits x = x + k * 2 ^ bits.
Proof.
  unfold to_signed. cbv zeta.
  destruct (Z.eq_dec (2 ^ bits) 0) as [H0 | H0].
  - rewrite H0, Z.mod_0_r. exists 0.
    destruct (x <? 2 ^ (bits - 1)); lia.
  - pose proof (Z.div_mod x (2 ^ bits) H0) as Hdm.
    destruct (x mod 2 ^ bits <? 2 ^ (bits - 1)).
    + exists (- (x / 2 ^ bits)). lia.
    + exists (- (x / 2 ^ bits) - 1). lia.
Qed.

Lemma ptr_diff_congr (p q : Z) :
  exists k : Z, ptr_diff p q = p - q + k * 18446744073709551616.
Proof.
  unfold ptr_diff, to_ptrdiff. apply (to_signed_congr SIZE_BITS (p - q)).
Qed.

Lemma to_int_id (x : Z) : is_int x -> to_int x = x.
Proof.
  unfold is_int, INT_MIN, INT_MAX, to_int. intros H.
  apply to_signed_id; [reflexivity | lia].
Qed.

Lemma to_ptrdiff_id (x : Z) :
  - 2 ^ 63 <= x < 2 ^ 63 -> to_ptrdiff x = x.
Proof.
  intros H. unfold to_ptrdiff. apply to_signed_id; [reflexivity | exact H].
Qed.

Lemma to_ptrdiff_range (x : Z) : - 2 ^ 63 <= to_ptrdiff x < 2 ^ 63.
Proof.
  unfold to_ptrdiff. apply (to_signed_range SIZE_BITS x). reflexivity.
Qed.

(** ** Views *)

Lemma TLVRecord_ctor_eq (p : Z) : TLVRecord_ctor p = {| m_Data := p |}.
Proof.
  unfold TLVRecord_ctor, NULL. destruct (Z.eqb_spec p 0); subst; reflexivity.
Qed.

Lemma isNull_ctor_NULL : isNull (TLVRecord_ctor NULL) = true.
Proof. reflexivity. Qed.

Lemma isNull_true (r : TLVRecord) : isNull r = true <-> m_Data r = NULL.
Proof. unfold isNull. apply Z.eqb_eq. Qed.

Lemma isNull_false (r : TLVRecord) : isNull r = false <-> m_Data r <> NULL.
Proof. unfold isNull. apply Z.eqb_neq. Qed.

Lemma isNull_null_view (r : TLVRecord) :
  isNull r = true -> r = TLVRecord_ctor NULL.
Proof.
  intros H. apply isNull_true in H. destruct r as [p]. simpl in H. subst.
  reflexivity.
Qed.

Lemma load_bytes_mapped (mem : Memory) (bytes : list Z) :
  forall p,
    (forall i, (i < length bytes)%nat ->
               mem (p + Z.of_nat i) = nth_error bytes i) ->
    load_bytes mem p (length bytes) = Done bytes.
Proof.
  induction bytes as [| b bs IH]; intros p H; simpl.
  - reflexivity.
  - unfold load. specialize (H 0%nat (Nat.lt_0_succ _)) as H0.
    simpl in H0. rewrite Z.add_0_r in H0. rewrite H0. simpl.
    rewrite IH; [reflexivity |].
    intros i Hi. specialize (H (S i) (proj1 (Nat.succ_lt_mono _ _) Hi)).
    rewrite Nat2Z.inj_succ in H. simpl in H. rewrite <- H. f_equal. lia.
Qed.

Lemma le_combine_range (bytes : list Z) :
  Forall (fun b => 0 <= b < 256) bytes ->
  0 <= le_combine bytes < 256 ^ Z.of_nat (length bytes).
Proof.
  induction 1 as [| b bs Hb _ IH]; cbn [length le_combine].
  - simpl. lia.
  - rewrite Nat2Z.inj_succ, Z.pow_succ_r by lia.
    set (P := 256 ^ Z.of_nat (length bs)) in *. lia.
Qed.

(** ** TLVRecord *)

(** C4, as amended.  [getType] has no check of its own: on a null view it
    reads the byte at address [NULL], returns it as the tag when that address
    is mapped and is undefined behaviour (a fault at that address) when it is
    not; on any view whose first byte is mapped it returns that byte. *)
Theorem getType_unchecked :
  forall (mem : Memory) (r : TLVRecord),
    (forall t, mem (m_Data r) = Some t -> getType mem r = Done t) /\
    (isNull r = true ->
       (forall t, mem NULL = Some t -> getType mem r = Done t) /\
       (mem NULL = None -> getType mem r = Fault NULL)).
Proof.
  intros mem r. unfold getType, load, OFFSET_recordType.
  rewrite Z.add_0_r. split.
  - intros t Ht. rewrite Ht. reflexivity.
  - intros Hnull. apply isNull_true in Hnull. rewrite Hnull. split.
    + intros t Ht. rewrite Ht. reflexivity.
    + intros Hn. rewrite Hn. reflexivity.
Qed.

Lemma getType_unchecked_witness :
  getType example_mem (TLVRecord_ctor example_base) = Done 3 /\
  getType example_mem (TLVRecord_ctor NULL) = Fault NULL.
Proof.
  split.
  - apply (proj1 (getType_unchecked example_mem (TLVRecord_ctor example_base))).
    reflexivity.
  - apply (proj2 (getType_unchecked example_mem (TLVRecord_ctor NULL)));
      reflexivity.
Defined.

(** C4, as stated, fails: with address 0 mapped, [getType] on the null view
    returns a tag. *)
Lemma getType_null_returns_tag :
  isNull (TLVRecord_ctor NULL) = true /\
  getType low_mem (TLVRecord_ctor NULL) = Done 7.
Proof. split; reflexivity. Qed.

(** *** Scalars and their bytes *)

Lemma two_pow_bits (T : ScalarType) : 2 ^ bits T = 256 ^ Z.of_nat (sizeof T).
Proof.
  unfold bits. rewrite Z.pow_mul_r by lia. reflexivity.
Qed.

Lemma bits_pos (T : ScalarType) : 0 < bits T.
Proof. destruct T; reflexivity. Qed.

Lemma le_combine_digit (bytes : list Z) :
  Forall (fun b => 0 <= b < 256) bytes ->
  forall i, (i < length bytes)%nat ->
    (le_combine bytes / 256 ^ Z.of_nat i) mod 256 = nth i bytes 0.
Proof.
  induction 1 as [| b bs Hb _ IH]; intros i Hi; cbn [length] in Hi; [lia |].
  cbn [le_combine]. destruct i as [| i]; cbn [nth].
  - change (Z.of_nat 0) with 0. rewrite Z.pow_0_r, Z.div_1_r.
    replace (b + 256 * le_combine bs) with (b + le_combine bs * 256) by ring.
    rewrite Z.mod_add by lia. apply Z.mod_small. exact Hb.
  - rewrite Nat2Z.inj_succ, Z.pow_succ_r by lia.
    rewrite <- Z.div_div by (try apply Z.pow_pos_nonneg; lia).
    replace ((b + 256 * le_combine bs) / 256) with (le_combine bs).
    + apply IH. lia.
    + replace (b + 256 * le_combine bs) with (b + le_combine bs * 256) by ring.
      rewrite Z.div_add by lia.
      rewrite (Z.div_small b 256) by lia. lia.
Qed.

Lemma digit_shift (n i : nat) (u k : Z) :
  (i < n)%nat ->
  ((u + k * 256 ^ Z.of_nat n) / 256 ^ Z.of_nat i) mod 256
  = (u / 256 ^ Z.of_nat i) mod 256.
Proof.
  intros Hi.
  assert (Hpos : 0 < 256 ^ Z.of_nat i) by (apply Z.pow_pos_nonneg; lia).
  replace (Z.of_nat n) with (Z.of_nat (n - i - 1) + 1 + Z.of_nat i) by lia.
  rewrite !Z.pow_add_r, Z.pow_1_r by lia.
  replace (k * (256 ^ Z.of_nat (n - i - 1) * 256 * 256 ^ Z.of_nat i))
    with (k * 256 ^ Z.of_nat (n - i - 1) * 256 * 256 ^ Z.of_nat i) by ring.
  rewrite Z.div_add by lia. apply Z.mod_add. lia.
Qed.

Lemma same_digits_mod (n : nat) (v u : Z) :
  (forall i, (i < n)%nat ->
     (v / 256 ^ Z.of_nat i) mod 256 = (u / 256 ^ Z.of_nat i) mod 256) ->
  v mod 256 ^ Z.of_nat n = u mod 256 ^ Z.of_nat n.
Proof.
  induction n as [| n IH]; intros H.
  - rewrite Z.pow_0_r, !Z.mod_1_r. reflexivity.
  - assert (Hpos : 0 < 256 ^ Z.of_nat n) by (apply Z.pow_pos_nonneg; lia).
    rewrite Nat2Z.inj_succ, Z.pow_succ_r, Z.mul_comm by lia.
    rewrite !Z.rem_mul_r by lia.
    rewrite IH by (intros i Hi; apply H; lia).
    rewrite (H n) by lia. reflexivity.
Qed.

Lemma in_range_0 (T : ScalarType) : in_range T 0.
Proof. destruct T; vm_compute; (split; [discriminate | reflexivity]). Qed.

(** [of_bytes T bytes] is a value of [T], and its bytes are [bytes]. *)
Lemma of_bytes_in_range (T : ScalarType) (bytes : list Z) :
  Forall (fun b => 0 <= b < 256) bytes ->
  length bytes = sizeof T ->
  in_range T (of_bytes T bytes).
Proof.
  intros Hall Hlen. unfold in_range, of_bytes.
  destruct (is_signed T).
  - apply to_signed_range. apply bits_pos.
  - rewrite two_pow_bits, <- Hlen. apply le_combine_range. exact Hall.
Qed.

Lemma of_bytes_digit (T : ScalarType) (bytes : list Z) :
  Forall (fun b => 0 <= b < 256) bytes ->
  length bytes = sizeof T ->
  forall i, (i < sizeof T)%nat ->
    (of_bytes T bytes / 256 ^ Z.of_nat i) mod 256 = nth i bytes 0.
Proof.
  intros Hall Hlen i Hi. unfold of_bytes. destruct (is_signed T).
  - destruct (to_signed_congr (bits T) (le_combine bytes)) as [k ->].
    rewrite two_pow_bits, digit_shift by exact Hi.
    apply le_combine_digit; [exact Hall | lia].
  - apply le_combine_digit; [exact Hall | lia].
Qed.

(** The only value of [T] with the bytes [bytes] is [of_bytes T bytes]. *)
Lemma of_bytes_unique (T : ScalarType) (bytes : list Z) (v : Z) :
  Forall (fun b => 0 <= b < 256) bytes ->
  length bytes = sizeof T ->
  in_range T v ->
  (forall i, (i < sizeof T)%nat ->
     (v / 256 ^ Z.of_nat i) mod 256 = nth i bytes 0) ->
  v = of_bytes T bytes.
Proof.
  intros Hall Hlen Hrange Hdigits.
  assert (Hu : 0 <= le_combine bytes < 256 ^ Z.of_nat (sizeof T)).
  { rewrite <- Hlen. apply le_combine_range. exact Hall. }
  assert (Hmod : v mod 2 ^ bits T = le_combine bytes mod 2 ^ bits T).
  { rewrite two_pow_bits. apply same_digits_mod. intros i Hi.
    rewrite (Hdigits i Hi). symmetry.
    apply le_combine_digit; [exact Hall | lia]. }
  unfold in_range, of_bytes in *. destruct (is_signed T).
  - rewrite <- (to_signed_id (bits T) v (bits_pos T) Hrange).
    unfold to_signed. rewrite Hmod. reflexivity.
  - rewrite <- (Z.mod_small v (2 ^ bits T)) by exact Hrange.
    rewrite Hmod, two_pow_bits. apply Z.mod_small. exact Hu.
Qed.

(** C9.  [getValueAs<T>] returns 0 when the value is shorter than
    [sizeof(T)]; otherwise it returns the value of [T] whose bytes, least
    significant first and in two's complement for a signed [T], are the
    first [sizeof(T)] value bytes. *)
Theorem getValueAs_spec :
  forall (V : TLVRecordType) (mem : Memory) (T : ScalarType) (r : TLVRecord),
    isNull r = false ->
    is_size_t (getDataSize mem r) ->
    (getDataSize mem r < Z.of_nat (sizeof T) ->
       getValueAs mem T r = Done 0) /\
    (Z.of_nat (sizeof T) <= getDataSize mem r ->
       forall bytes : list Z,
         length bytes = sizeof T ->
         Forall (fun b => 0 <= b < 256) bytes ->
         (forall i, (i < sizeof T)%nat ->
            mem (m_Data r + OFFSET_recordValue + Z.of_nat i) = nth_error bytes i) ->
         (exists v : Z,
            getValueAs mem T r = Done v /\
            in_range T v /\
            forall i, (i < sizeof T)%nat ->
              nth_error bytes i = Some ((v / 256 ^ Z.of_nat i) mod 256)) /\
         (forall v : Z,
            in_range T v ->
            (forall i, (i < sizeof T)%nat ->
               nth_error bytes i = Some ((v / 256 ^ Z.of_nat i) mod 256)) ->
            getValueAs mem T r = Done v)).
Proof.
  intros V mem T r _ Hsize. unfold getValueAs.
  rewrite (to_size_t_id _ Hsize). split.
  - intros Hshort. apply Z.ltb_lt in Hshort. rewrite Hshort. reflexivity.
  - intros Hlong bytes Hlen Hall Hbytes. apply Z.ltb_ge in Hlong. rewrite Hlong.
    unfold getValue.
    assert (Hload : load_bytes mem (m_Data r + OFFSET_recordValue) (sizeof T)
                    = Done bytes).
    { rewrite <- Hlen. apply load_bytes_mapped. intros i Hi. apply Hbytes. lia. }
    rewrite Hload. cbn [bind]. split.
    + exists (of_bytes T bytes). split; [reflexivity |].
      split; [apply of_bytes_in_range; assumption |].
      intros i Hi. rewrite (nth_error_nth' bytes 0) by lia. f_equal.
      symmetry. apply of_bytes_digit; assumption.
    + intros v Hrange Hdigits. f_equal. symmetry.
      apply of_bytes_unique; try assumption.
      intros i Hi. specialize (Hdigits i Hi).
      rewrite (nth_error_nth' bytes 0) in Hdigits by lia.
      injection Hdigits as ->. reflexivity.
Qed.

Lemma getValueAs_spec_witness :
  getValueAs (V := ValueLenTLV) hi_mem UInt32 (TLVRecord_ctor example_base)
  = Done 0 /\
  getValueAs (V := ValueLenTLV) example_mem UInt32 (TLVRecord_ctor example_base)
  = Done 3721182122 /\
  getValueAs (V := ValueLenTLV) ff_mem Int32 (TLVRecord_ctor example_base)
  = Done (-1).
Proof.
  split; [| split].
  - apply (proj1 (getValueAs_spec ValueLenTLV hi_mem UInt32
                    (TLVRecord_ctor example_base)
                    eq_refl ltac:(vm_compute; split; discriminate))).
    reflexivity.
  - apply (proj2 (proj2 (getValueAs_spec ValueLenTLV example_mem UInt32
                           (TLVRecord_ctor example_base)
                           eq_refl ltac:(vm_compute; split; discriminate))
                        ltac:(vm_compute; discriminate)
                        [170; 187; 204; 221] eq_refl
                        ltac:(repeat constructor; discriminate)
                        ltac:(intros i Hi;
                              destruct i as [| [| [| [| i]]]];
                              try reflexivity; cbn [sizeof] in Hi; lia))).
    + vm_compute. split; [discriminate | reflexivity].
    + intros i Hi. destruct i as [| [| [| [| i]]]]; try reflexivity.
      cbn [sizeof] in Hi. lia.
  - apply (proj2 (proj2 (getValueAs_spec ValueLenTLV ff_mem Int32
                           (TLVRecord_ctor example_base)
                           eq_refl ltac:(vm_compute; split; discriminate))
                        ltac:(vm_compute; discriminate)
                        [255; 255; 255; 255] eq_refl
                        ltac:(repeat constructor; discriminate)
                        ltac:(intros i Hi;
                              destruct i as [| [| [| [| i]]]];
                              try reflexivity; cbn [sizeof] in Hi; lia))).
    + vm_compute. split; [discriminate | reflexivity].
    + intros i Hi. destruct i as [| [| [| [| i]]]]; try reflexivity.
      cbn [sizeof] in Hi. lia.
Defined.

(** ** TLVRecordReader: the first record *)

(** C8.  [getFirstTLVRecord] returns a null view when the length is 0 and
    otherwise the view constructed at the base pointer; the size that the
    first record declares plays no part, also when it exceeds the length. *)
Theorem getFirstTLVRecord_spec :
  forall (tlvDataBasePtr tlvDataLen : Z),
    (tlvDataLen = 0 ->
       isNull (getFirstTLVRecord tlvDataBasePtr tlvDataLen) = true) /\
    (tlvDataLen <> 0 ->
       getFirstTLVRecord tlvDataBasePtr tlvDataLen = TLVRecord_ctor tlvDataBasePtr /\
       getRecordBasePtr (getFirstTLVRecord tlvDataBasePtr tlvDataLen)
       = tlvDataBasePtr /\
       forall (V : TLVRecordType) (mem : Memory),
         tlvDataLen < getTotalSize mem (TLVRecord_ctor tlvDataBasePtr) ->
         isNull (getFirstTLVRecord tlvDataBasePtr tlvDataLen)
         = (tlvDataBasePtr =? NULL)).
Proof.
  intros base len. unfold getFirstTLVRecord. split.
  - intros ->. reflexivity.
  - intros Hlen. apply Z.eqb_neq in Hlen. rewrite Hlen.
    rewrite TLVRecord_ctor_eq. repeat split.
Qed.

Lemma getFirstTLVRecord_spec_witness :
  isNull (getFirstTLVRecord example_base 0) = true /\
  getFirstTLVRecord example_base 4 = TLVRecord_ctor example_base /\
  isNull (getFirstTLVRecord example_base 4) = false.
Proof.
  split; [| split].
  - apply (proj1 (getFirstTLVRecord_spec example_base 0)). reflexivity.
  - apply (proj2 (getFirstTLVRecord_spec example_base 4)). discriminate.
  - apply (proj2 (proj2 (proj2 (getFirstTLVRecord_spec example_base 4)
                                ltac:(discriminate)))
             ValueLenTLV example_mem).
    reflexivity.
Defined.

(** ** TLVRecordReader: the next record *)

Lemma getNextTLVRecord_null :
  forall (V : TLVRecordType) (mem : Memory) (record : TLVRecord) (base len : Z),
    isNull record = true ->
    getNextTLVRecord mem record base len = TLVRecord_ctor NULL.
Proof.
  intros V mem record base len H. unfold getNextTLVRecord. rewrite H.
  reflexivity.
Qed.

(** A non-null result of [getNextTLVRecord] went through both tests. *)
Lemma getNextTLVRecord_not_null :
  forall (V : TLVRecordType) (mem : Memory) (record : TLVRecord) (base len : Z),
    isNull (getNextTLVRecord mem record base len) = false ->
    isNull record = false /\
    0 <= ptr_diff (getRecordBasePtr record) base /\
    next_out_of_bounds mem record base len = false /\
    getNextTLVRecord mem record base len
    = {| m_Data := ptr_add (getRecordBasePtr record)
                     (to_size_t (getTotalSize mem record)) |}.
Proof.
  intros V mem record base len. unfold getNextTLVRecord.
  destruct (isNull record); [discriminate |].
  destruct (Z.ltb_spec (ptr_diff (getRecordBasePtr record) base) 0);
    [discriminate |].
  destruct (next_out_of_bounds mem record base len); [discriminate |].
  intros _. rewrite TLVRecord_ctor_eq. repeat split. assumption.
Qed.

(** Where both the total size and the buffer length fit an [int], and the
    buffer is a region of the address space, [getNextTLVRecord] compares
    [offset + totalSize] with the length exactly. *)
Lemma getNextTLVRecord_in_range :
  forall (V : TLVRecordType) (mem : Memory) (record : TLVRecord) (base len : Z),
    isNull record = false ->
    is_size_t (m_Data record) ->
    0 <= base -> base + len <= SIZE_MOD ->
    0 <= len <= INT_MAX ->
    0 <= getTotalSize mem record <= INT_MAX ->
    let offset := ptr_diff (getRecordBasePtr record) base in
    let totalSize := getTotalSize mem record in
    offset + totalSize <= PTRDIFF_MAX ->
    (offset < 0 \/ offset + totalSize >= len ->
       isNull (getNextTLVRecord mem record base len) = true) /\
    (0 <= offset /\ offset + totalSize < len ->
       isNull (getNextTLVRecord mem record base len) = false /\
       getRecordBasePtr (getNextTLVRecord mem record base len)
       = base + offset + totalSize).
Proof.
  intros V mem record base len Hnull Hp Hbase Hend Hlen Htotal offset totalSize
         Hovf.
  assert (Hint_total : to_int (getTotalSize mem record) = totalSize).
  { apply to_int_id. unfold is_int, INT_MIN. subst totalSize.
    unfold INT_MAX, INT_BITS in *. lia. }
  assert (Hint_len : to_int len = len).
  { apply to_int_id. unfold is_int, INT_MIN. unfold INT_MAX, INT_BITS in *. lia. }
  assert (Hsum : to_ptrdiff (offset + totalSize) = offset + totalSize).
  { apply to_ptrdiff_id. pose proof (to_ptrdiff_range (m_Data record - base)).
    unfold PTRDIFF_MAX, SIZE_BITS in Hovf. subst offset totalSize.
    unfold ptr_diff, getRecordBasePtr in *. simpl in *. lia. }
  unfold getNextTLVRecord, next_out_of_bounds. rewrite Hnull.
  fold offset. rewrite Hint_total, Hint_len, Hsum.
  split.
  - intros [Hneg | Hout].
    + apply Z.ltb_lt in Hneg. rewrite Hneg. reflexivity.
    + destruct (offset <? 0); [reflexivity |].
      assert (Hge : (offset + totalSize >=? len) = true).
      { rewrite Z.geb_leb. apply Z.leb_le. lia. }
      rewrite Hge. reflexivity.
  - intros [Hoff Hin].
    assert (Hlt : (offset <? 0) = false) by (apply Z.ltb_ge; exact Hoff).
    assert (Hge : (offset + totalSize >=? len) = false).
    { rewrite Z.geb_leb. apply Z.leb_gt. exact Hin. }
    rewrite Hlt, Hge, TLVRecord_ctor_eq.
    unfold getRecordBasePtr, isNull. cbn [m_Data].
    apply isNull_false in Hnull. unfold NULL in *.
    (* the record lies in the buffer: its address is [base + offset] *)
    assert (Haddr : m_Data record = base + offset).
    { destruct (ptr_diff_congr (m_Data record) base) as [k Hk].
      fold (getRecordBasePtr record) in Hk. fold offset in Hk.
      unfold is_size_t, SIZE_MAX in Hp. rewrite SIZE_MOD_eq in *.
      subst totalSize. unfold getRecordBasePtr in Hk. lia. }
    assert (Htot : to_size_t (getTotalSize mem record) = totalSize).
    { apply to_size_t_id. unfold is_size_t, SIZE_MAX. rewrite SIZE_MOD_eq.
      unfold INT_MAX, INT_BITS in Htotal. simpl in Htotal. lia. }
    unfold ptr_add. rewrite Htot.
    assert (Hptr : to_size_t (m_Data record + totalSize) = m_Data record + totalSize).
    { apply to_size_t_id. unfold is_size_t, SIZE_MAX. unfold is_size_t in Hp.
      subst totalSize. lia. }
    rewrite Hptr. subst totalSize.
    split; [apply Z.eqb_neq; lia | lia].
Qed.

(** C1, at a buffer of 2 GiB.  The first record is six bytes long and lies at
    offset 0, so [offset + totalSize] is below the length; the length turns
    negative as an [int], and [getNextTLVRecord] returns a null view. *)
Theorem getNextTLVRecord_large_buffer :
  let record := TLVRecord_ctor example_base in
  isNull record = false /\
  ptr_diff (getRecordBasePtr record) example_base = 0 /\
  getTotalSize (TLVRecordType := ValueLenTLV) large_mem record = 6 /\
  is_size_t large_len /\
  0 + 6 < large_len /\
  to_int large_len = INT_MIN /\
  isNull (getNextTLVRecord (V := ValueLenTLV) large_mem record
            example_base large_len) = true.
Proof.
  cbv zeta. repeat split; try reflexivity; discriminate.
Qed.

(** C2, at a record whose total size is [2^32 + 2].  The size is cut down to
    2 by the conversion to [int], the test lets the record through, and
    [getNextTLVRecord] returns a view far beyond the eight bytes of the
    buffer. *)
Theorem getNextTLVRecord_truncates_totalSize :
  let V := FixedSizeTLV (2 ^ 32 + 2) in
  let record := TLVRecord_ctor example_base in
  is_size_t (getTotalSize example_mem record) /\
  INT_MAX < getTotalSize example_mem record /\
  to_int (getTotalSize example_mem record) = 2 /\
  ptr_diff (getRecordBasePtr record) example_base
  + getTotalSize example_mem record >= 8 /\
  next_out_of_bounds example_mem record example_base 8 = false /\
  getNextTLVRecord example_mem record example_base 8
  = {| m_Data := example_base + 2 ^ 32 + 2 |}.
Proof.
  cbv zeta. repeat split; try reflexivity; discriminate.
Qed.

(** ** TLVRecordReader: the traversal *)

(** A list of distinct integers of [0, N) has at most [N] elements. *)
Lemma NoDup_bounded_length (N : Z) (l : list Z) :
  NoDup l ->
  (forall x, In x l -> 0 <= x < N) ->
  Z.of_nat (length l) <= Z.max 0 N.
Proof.
  intros Hnd Hin.
  assert (Hincl : incl l (map Z.of_nat (seq 0 (Z.to_nat N)))).
  { intros x Hx. specialize (Hin x Hx). apply in_map_iff.
    exists (Z.to_nat x). split; [lia |]. apply in_seq. lia. }
  apply (NoDup_incl_length Hnd) in Hincl.
  rewrite length_map, length_seq in Hincl. lia.
Qed.

Lemma NoDup_map_seq (f : nat -> Z) (m : nat) :
  forall a : nat,
    (forall i j, (a <= i < j)%nat -> (j < a + m)%nat -> f i <> f j) ->
    NoDup (map f (seq a m)).
Proof.
  induction m as [| m IH]; intros a Hinj; simpl.
  - constructor.
  - constructor.
    + intros Hin. apply in_map_iff in Hin. destruct Hin as [j [Hj Hseq]].
      apply in_seq in Hseq. apply (Hinj a j); [lia | lia | congruence].
    + apply IH. intros i j Hij Hj. apply Hinj; lia.
Qed.

Section Traversal.

Context {V : TLVRecordType}.
Variable mem : Memory.
Variables tlvDataBasePtr tlvDataLen : Z.

Local Abbreviation view n := (nth_view mem n tlvDataBasePtr tlvDataLen).
Local Abbreviation ends n := (ends_after mem n tlvDataBasePtr tlvDataLen).
Local Abbreviation mismatches t n :=
  (mismatches_before mem t n tlvDataBasePtr tlvDataLen).

Lemma nth_view_null_succ (n : nat) :
  isNull (view n) = true -> isNull (view (S n)) = true.
Proof.
  intros H. simpl. rewrite getNextTLVRecord_null by exact H. reflexivity.
Qed.

Lemma nth_view_null_stable (n m : nat) :
  isNull (view n) = true -> (n <= m)%nat -> isNull (view m) = true.
Proof.
  intros H Hle. induction Hle as [| m Hle IH].
  - exact H.
  - apply nth_view_null_succ. exact IH.
Qed.

Lemma nth_view_periodic (i j : nat) :
  view i = view j -> forall k, view (k + i) = view (k + j).
Proof.
  intros H k. induction k as [| k IH]; simpl.
  - exact H.
  - rewrite IH. reflexivity.
Qed.

(** A traversal that ends never comes back to a view. *)
Lemma nth_view_distinct (n i j : nat) :
  ends n -> (i < j)%nat -> (j < n)%nat -> view i <> view j.
Proof.
  intros [Hend Hlive] Hij Hjn Heq.
  assert (Hloop : forall q, view (q * (j - i) + i) = view i).
  { induction q as [| q IH]; [reflexivity |].
    replace (S q * (j - i) + i)%nat with (q * (j - i) + j)%nat by lia.
    rewrite <- (nth_view_periodic i j Heq). exact IH. }
  specialize (Hloop n).
  assert (Hn : isNull (view (n * (j - i) + i)) = true).
  { apply (nth_view_null_stable n); [exact Hend | nia]. }
  rewrite Hloop, (Hlive i) in Hn by lia. discriminate.
Qed.

(** Every view that is followed by a non-null view has an offset in
    [0, 2^63). *)
Lemma nth_view_offset_range (i : nat) :
  isNull (view (S i)) = false ->
  0 <= ptr_diff (m_Data (view i)) tlvDataBasePtr < 9223372036854775808.
Proof.
  intros H. simpl in H. apply getNextTLVRecord_not_null in H.
  destruct H as [_ [H _]]. unfold getRecordBasePtr in H.
  pose proof (to_ptrdiff_range (m_Data (view i) - tlvDataBasePtr)) as Hr.
  unfold ptr_diff. unfold ptr_diff in H. change (2 ^ 63) with 9223372036854775808 in Hr.
  lia.
Qed.

(** Every non-null view but the first is an address of [size_t] range. *)
Lemma nth_view_succ_range (i : nat) :
  isNull (view (S i)) = false ->
  0 <= m_Data (view (S i)) < 18446744073709551616.
Proof.
  intros H. simpl in *. apply getNextTLVRecord_not_null in H.
  destruct H as [_ [_ [_ H]]]. rewrite H. simpl. unfold ptr_add.
  pose proof (to_size_t_range
                (getRecordBasePtr (view i)
                 + to_size_t (getTotalSize mem (view i)))) as Hr.
  rewrite SIZE_MOD_eq in Hr. exact Hr.
Qed.

(** A traversal that ends visits fewer than [2^63 + 3] views, so that their
    number is a [size_t] other than [(size_t)-1]. *)
Lemma ends_after_bound (n : nat) :
  ends n -> Z.of_nat n <= 9223372036854775810.
Proof.
  intros Hends. pose proof Hends as [Hend Hlive].
  set (key := fun i : nat => ptr_diff (m_Data (view i)) tlvDataBasePtr).
  assert (Hnd : NoDup (map key (seq 1 (n - 2)))).
  { apply NoDup_map_seq. intros i j Hij Hj Hkey.
    apply (nth_view_distinct n i j Hends); [lia | lia |].
    assert (Hi : isNull (view (S (i - 1))) = false) by (apply Hlive; lia).
    assert (Hj' : isNull (view (S (j - 1))) = false) by (apply Hlive; lia).
    apply nth_view_succ_range in Hi, Hj'.
    replace (S (i - 1)) with i in Hi by lia.
    replace (S (j - 1)) with j in Hj' by lia.
    unfold key in Hkey.
    destruct (ptr_diff_congr (m_Data (view i)) tlvDataBasePtr) as [k1 Hk1].
    destruct (ptr_diff_congr (m_Data (view j)) tlvDataBasePtr) as [k2 Hk2].
    assert (Hp : m_Data (view i) = m_Data (view j)) by lia.
    destruct (view i) as [p], (view j) as [q]. simpl in Hp. congruence. }
  apply (NoDup_bounded_length 9223372036854775808) in Hnd.
  - rewrite length_map, length_seq in Hnd. lia.
  - intros x Hx. apply in_map_iff in Hx. destruct Hx as [i [<- Hi]].
    apply in_seq in Hi. unfold key. apply nth_view_offset_range.
    apply Hlive. lia.
Qed.

(** *** The loop of [getTLVRecord] *)

Lemma getTLVRecord_loop_null (fuel : nat) (recordType : Z) (curRec : TLVRecord) :
  isNull curRec = true ->
  getTLVRecord_loop mem fuel recordType curRec tlvDataBasePtr tlvDataLen
  = Done (TLVRecord_ctor NULL).
Proof.
  intros H. destruct fuel; simpl; rewrite H; reflexivity.
Qed.

Lemma getTLVRecord_loop_skip (recordType : Z) (m : nat) :
  forall (k fuel : nat),
    (forall i, (i < m)%nat ->
       isNull (view (k + i)) = false /\
       exists t, getType mem (view (k + i)) = Done t /\ t <> recordType) ->
    getTLVRecord_loop mem (m + fuel) recordType (view k)
      tlvDataBasePtr tlvDataLen
    = getTLVRecord_loop mem fuel recordType (view (k + m))
        tlvDataBasePtr tlvDataLen.
Proof.
  induction m as [| m IH]; intros k fuel H.
  - rewrite Nat.add_0_r. reflexivity.
  - destruct (H 0%nat (Nat.lt_0_succ _)) as [Hnull [t [Ht Hne]]].
    rewrite Nat.add_0_r in Hnull, Ht.
    cbn [Nat.add getTLVRecord_loop]. rewrite Hnull, Ht. cbn [bind].
    apply Z.eqb_neq in Hne. rewrite Hne.
    change (getNextTLVRecord mem (view k) tlvDataBasePtr tlvDataLen)
      with (view (S k)).
    rewrite IH.
    + replace (S k + m)%nat with (k + S m)%nat by lia. reflexivity.
    + intros i Hi. replace (S k + i)%nat with (k + S i)%nat by lia.
      apply H. lia.
Qed.

Lemma getTLVRecord_loop_done (recordType : Z) (fuel : nat) :
  forall (k : nat) (r : TLVRecord),
    mismatches recordType k ->
    getTLVRecord_loop mem fuel recordType (view k) tlvDataBasePtr tlvDataLen
    = Done r ->
    exists n : nat,
      mismatches recordType n /\
      r = view n /\
      (isNull r = true \/ (isNull r = false /\ getType mem r = Done recordType)).
Proof.
  unfold mismatches_before.
  induction fuel as [| fuel IH]; intros k r Hk Hrun;
    cbn [getTLVRecord_loop] in Hrun;
    destruct (isNull (view k)) eqn:Hnull.
  1, 3: injection Hrun as <-; exists k; split; [exact Hk |];
        split; [symmetry; apply isNull_null_view; exact Hnull | left; reflexivity].
  - discriminate.
  - destruct (getType mem (view k)) as [t | |] eqn:Ht; cbn [bind] in Hrun;
      try discriminate.
    destruct (Z.eqb_spec t recordType) as [-> | Hne].
    + injection Hrun as <-. exists k. split; [exact Hk |].
      split; [reflexivity | right; split; assumption].
    + apply (IH (S k)); [| exact Hrun].
      intros i Hi. destruct (Nat.eq_dec i k) as [-> | Hik].
      * split; [exact Hnull | exists t; split; assumption].
      * apply Hk. lia.
Qed.

(** *** The loop of [getTLVRecordCount] *)

Lemma getTLVRecordCount_loop_skip (m : nat) :
  forall (k fuel : nat) (c : Z),
    (forall i, (i < m)%nat -> isNull (view (k + i)) = false) ->
    getTLVRecordCount_loop mem (m + fuel) {| m_RecordCount := to_size_t c |}
      (view k) tlvDataBasePtr tlvDataLen
    = getTLVRecordCount_loop mem fuel
        {| m_RecordCount := to_size_t (c + Z.of_nat m) |}
        (view (k + m)) tlvDataBasePtr tlvDataLen.
Proof.
  induction m as [| m IH]; intros k fuel c H.
  - rewrite Nat.add_0_r, Z.add_0_r. reflexivity.
  - pose proof (H 0%nat (Nat.lt_0_succ _)) as Hnull.
    rewrite Nat.add_0_r in Hnull.
    cbn [Nat.add getTLVRecordCount_loop m_RecordCount]. rewrite Hnull.
    change (getNextTLVRecord mem (view k) tlvDataBasePtr tlvDataLen)
      with (view (S k)).
    replace (to_size_t (to_size_t c + 1)) with (to_size_t (c + 1)).
    2:{ unfold to_size_t, to_unsigned. symmetry. apply Zplus_mod_idemp_l. }
    rewrite IH.
    + replace (S k + m)%nat with (k + S m)%nat by lia.
      replace (c + 1 + Z.of_nat m) with (c + Z.of_nat (S m)) by lia.
      reflexivity.
    + intros i Hi. replace (S k + i)%nat with (k + S i)%nat by lia.
      apply H. lia.
Qed.

Lemma getTLVRecordCount_loop_ends (n fuel : nat) :
  ends n -> (n <= fuel)%nat ->
  getTLVRecordCount_loop mem fuel {| m_RecordCount := 0 |}
    (view 0) tlvDataBasePtr tlvDataLen
  = Done {| m_RecordCount := Z.of_nat n |}.
Proof.
  intros Hends Hfuel. pose proof (ends_after_bound n Hends) as Hbound.
  destruct Hends as [Hend Hlive].
  replace fuel with (n + (fuel - n))%nat by lia.
  change {| m_RecordCount := 0 |} with {| m_RecordCount := to_size_t 0 |}.
  rewrite getTLVRecordCount_loop_skip by (intros i Hi; apply Hlive; exact Hi).
  cbn [Nat.add Z.add].
  rewrite to_size_t_id by (unfold is_size_t, SIZE_MAX; rewrite SIZE_MOD_eq; lia).
  destruct (fuel - n)%nat; cbn [getTLVRecordCount_loop]; rewrite Hend;
    reflexivity.
Qed.

(** *** Termination *)

Lemma nth_view_live_before (n i : nat) :
  isNull (view n) = false -> (i <= n)%nat -> isNull (view i) = false.
Proof.
  intros Hn Hi. destruct (isNull (view i)) eqn:Hnull; [| reflexivity].
  rewrite (nth_view_null_stable i n Hnull Hi) in Hn. discriminate.
Qed.

Lemma ends_after_first_null (m : nat) :
  isNull (view m) = true -> exists n, (n <= m)%nat /\ ends n.
Proof.
  induction m as [| m IH]; intros Hnull.
  - exists 0%nat. split; [lia |]. split; [exact Hnull | intros i Hi; lia].
  - destruct (isNull (view m)) eqn:Hm.
    + destruct (IH eq_refl) as [n [Hn Hends]]. exists n. split; [lia | exact Hends].
    + exists (S m). split; [lia |]. split; [exact Hnull |].
      intros i Hi. apply (nth_view_live_before m); [exact Hm | lia].
Qed.

Section Contract.

(** The buffer is a region of the address space and its length fits an
    [int]; every record has a positive total size that fits an [int]. *)
Hypothesis base_range : 0 <= tlvDataBasePtr.
Hypothesis buffer_end : tlvDataBasePtr + tlvDataLen <= SIZE_MOD.
Hypothesis len_range : 0 <= tlvDataLen <= INT_MAX.
Hypothesis size_range : forall r, 1 <= getTotalSize mem r <= INT_MAX.

(** Each view lies in the buffer, at least one byte after the one before. *)
Lemma nth_view_in_buffer (k : nat) :
  isNull (view k) = false ->
  tlvDataBasePtr + Z.of_nat k <= m_Data (view k) < tlvDataBasePtr + tlvDataLen.
Proof.
  induction k as [| k IH]; intros Hlive.
  - cbn [nth_view] in *. unfold getFirstTLVRecord in *.
    destruct (Z.eqb_spec tlvDataLen 0) as [H0 | H0]; [discriminate |].
    rewrite TLVRecord_ctor_eq. simpl. lia.
  - pose proof Hlive as Hnext. cbn [nth_view] in Hnext.
    apply getNextTLVRecord_not_null in Hnext.
    destruct Hnext as [Hk [_ [Hin Heq]]].
    specialize (IH Hk). specialize (size_range (view k)).
    cbn [nth_view]. rewrite Heq. cbn [m_Data].
    unfold next_out_of_bounds, getRecordBasePtr in *.
    unfold INT_MAX, INT_BITS in *. rewrite SIZE_MOD_eq in *.
    change (2 ^ (32 - 1) - 1) with 2147483647 in *.
    assert (Hoff : ptr_diff (m_Data (view k)) tlvDataBasePtr
                   = m_Data (view k) - tlvDataBasePtr).
    { apply to_ptrdiff_id. lia. }
    rewrite Hoff in Hin.
    rewrite (to_int_id (getTotalSize mem (view k))) in Hin
      by (unfold is_int, INT_MIN, INT_MAX, INT_BITS; simpl; lia).
    rewrite (to_int_id tlvDataLen) in Hin
      by (unfold is_int, INT_MIN, INT_MAX, INT_BITS; simpl; lia).
    rewrite to_ptrdiff_id in Hin by lia.
    rewrite Z.geb_leb in Hin. apply Z.leb_gt in Hin.
    unfold ptr_add.
    rewrite (to_size_t_id (getTotalSize mem (view k)))
      by (unfold is_size_t, SIZE_MAX; rewrite SIZE_MOD_eq; lia).
    rewrite to_size_t_id
      by (unfold is_size_t, SIZE_MAX; rewrite SIZE_MOD_eq; lia).
    lia.
Qed.

(** The traversal ends, after as many views as the buffer has bytes at
    most. *)
Lemma traversal_ends :
  exists n : nat, Z.of_nat n <= tlvDataLen /\ ends n.
Proof.
  assert (Hnull : isNull (view (Z.to_nat tlvDataLen)) = true).
  { destruct (isNull (view (Z.to_nat tlvDataLen))) eqn:H; [reflexivity |].
    apply nth_view_in_buffer in H. lia. }
  destruct (ends_after_first_null _ Hnull) as [n [Hn Hends]].
  exists n. split; [lia | exact Hends].
Qed.

(** [getTLVRecordCount] returns on a reader without a count. *)
Lemma getTLVRecordCount_returns :
  exists n : nat,
    Z.of_nat n <= tlvDataLen /\
    forall fuel, (Z.to_nat tlvDataLen <= fuel)%nat ->
      getTLVRecordCount mem fuel TLVRecordReader_ctor tlvDataBasePtr tlvDataLen
      = Done (Z.of_nat n, {| m_RecordCount := Z.of_nat n |}).
Proof.
  destruct traversal_ends as [n [Hn Hends]]. exists n. split; [exact Hn |].
  intros fuel Hfuel. unfold getTLVRecordCount.
  change (negb (m_RecordCount TLVRecordReader_ctor =? NO_COUNT)) with false.
  cbv iota.
  change (getFirstTLVRecord tlvDataBasePtr tlvDataLen) with (view 0).
  rewrite (getTLVRecordCount_loop_ends n fuel Hends) by lia. reflexivity.
Qed.

(** With the bytes of the buffer mapped, [getTLVRecord] returns. *)
Lemma getTLVRecord_returns (recordType : Z) :
  (forall p, tlvDataBasePtr <= p < tlvDataBasePtr + tlvDataLen ->
             exists b, mem p = Some b) ->
  exists r : TLVRecord,
    forall fuel, (Z.to_nat tlvDataLen <= fuel)%nat ->
      getTLVRecord mem fuel recordType tlvDataBasePtr tlvDataLen = Done r.
Proof.
  intros Hmapped. destruct traversal_ends as [n [Hn [Hend Hlive]]].
  assert (Hscan : forall m, (m <= n)%nat ->
            mismatches recordType m \/
            exists j, (j < m)%nat /\ mismatches recordType j /\
                      getType mem (view j) = Done recordType).
  { induction m as [| m IH]; intros Hm.
    - left. intros i Hi. lia.
    - destruct (IH ltac:(lia)) as [Hmis | [j [Hj [Hmis Hty]]]].
      + pose proof (Hlive m ltac:(lia)) as Hm_live.
        destruct (Hmapped (m_Data (view m))) as [t Ht].
        { pose proof (nth_view_in_buffer m Hm_live). lia. }
        assert (Hty : getType mem (view m) = Done t).
        { unfold getType, load, OFFSET_recordType. rewrite Z.add_0_r, Ht.
          reflexivity. }
        destruct (Z.eq_dec t recordType) as [-> | Hne].
        * right. exists m. split; [lia | split; assumption].
        * left. intros i Hi. destruct (Nat.eq_dec i m) as [-> | Him].
          -- split; [exact Hm_live | exists t; split; assumption].
          -- apply Hmis. lia.
      + right. exists j. split; [lia | split; assumption]. }
  unfold getTLVRecord.
  change (getFirstTLVRecord tlvDataBasePtr tlvDataLen) with (view 0).
  destruct (Hscan n (Nat.le_refl n)) as [Hmis | [j [Hj [Hmis Hty]]]].
  - exists (TLVRecord_ctor NULL). intros fuel Hfuel.
    replace fuel with (n + (fuel - n))%nat by lia.
    rewrite (getTLVRecord_loop_skip recordType n 0) by exact Hmis.
    apply getTLVRecord_loop_null. exact Hend.
  - exists (view j). intros fuel Hfuel.
    replace fuel with (j + S (fuel - j - 1))%nat by lia.
    rewrite (getTLVRecord_loop_skip recordType j 0) by exact Hmis.
    cbn [Nat.add getTLVRecord_loop]. rewrite (Hlive j Hj), Hty. cbn [bind].
    rewrite Z.eqb_refl. reflexivity.
Qed.

End Contract.

End Traversal.

(** ** TLVRecordReader: search *)

(** C5.  [getTLVRecord] walks the views from the first one on with
    [getNextTLVRecord] and returns the earliest one of the wanted type, or a
    null view when the walk ends (at the end of the buffer or at a failed
    bounds test) before any match; whatever it returns is such a view.  On
    records with the tags 5, 9, 9, 2 a search for 9 returns the record of
    index 1. *)
Theorem getTLVRecord_first_match :
  (forall (V : TLVRecordType) (mem : Memory) (recordType base len : Z) (n : nat),
     mismatches_before mem recordType n base len ->
     (isNull (nth_view mem n base len) = true ->
        forall fuel, (n <= fuel)%nat ->
          getTLVRecord mem fuel recordType base len = Done (TLVRecord_ctor NULL)) /\
     (isNull (nth_view mem n base len) = false ->
      getType mem (nth_view mem n base len) = Done recordType ->
        forall fuel, (n < fuel)%nat ->
          getTLVRecord mem fuel recordType base len
          = Done (nth_view mem n base len))) /\
  (forall (V : TLVRecordType) (mem : Memory) (recordType base len : Z)
          (fuel : nat) (r : TLVRecord),
     getTLVRecord mem fuel recordType base len = Done r ->
     exists n : nat,
       mismatches_before mem recordType n base len /\
       r = nth_view mem n base len /\
       (isNull r = true \/
        (isNull r = false /\ getType mem r = Done recordType))) /\
  (let view := fun i => nth_view (V := ValueLenTLV) tags_mem i example_base 8 in
   map (fun i => getType tags_mem (view i)) [0; 1; 2; 3]%nat
   = [Done 5; Done 9; Done 9; Done 2] /\
   isNull (view 4%nat) = true /\
   view 1%nat <> view 2%nat /\
   forall fuel, (1 < fuel)%nat ->
     getTLVRecord (V := ValueLenTLV) tags_mem fuel 9 example_base 8
     = Done (view 1%nat)).
Proof.
  assert (Hfound :
    forall (V : TLVRecordType) (mem : Memory) (recordType base len : Z) (n : nat),
      mismatches_before mem recordType n base len ->
      isNull (nth_view mem n base len) = false ->
      getType mem (nth_view mem n base len) = Done recordType ->
      forall fuel, (n < fuel)%nat ->
        getTLVRecord mem fuel recordType base len
        = Done (nth_view mem n base len)).
  { intros V mem recordType base len n Hmis Hlive Hty fuel Hfuel.
    unfold getTLVRecord.
    change (getFirstTLVRecord base len) with (nth_view mem 0 base len).
    replace fuel with (n + S (fuel - n - 1))%nat by lia.
    rewrite (getTLVRecord_loop_skip mem base len recordType n 0) by exact Hmis.
    cbn [Nat.add getTLVRecord_loop]. rewrite Hlive, Hty. cbn [bind].
    rewrite Z.eqb_refl. reflexivity. }
  split; [| split].
  - intros V mem recordType base len n Hmis. split.
    + intros Hnull fuel Hfuel. unfold getTLVRecord.
      change (getFirstTLVRecord base len) with (nth_view mem 0 base len).
      replace fuel with (n + (fuel - n))%nat by lia.
      rewrite (getTLVRecord_loop_skip mem base len recordType n 0) by exact Hmis.
      apply getTLVRecord_loop_null. exact Hnull.
    + apply Hfound. exact Hmis.
  - intros V mem recordType base len fuel r Hrun.
    apply (getTLVRecord_loop_done mem base len recordType fuel 0 r);
      [intros i Hi; lia | exact Hrun].
  - cbv zeta. repeat split; try reflexivity; try discriminate.
    intros fuel Hfuel.
    apply (Hfound ValueLenTLV tags_mem 9 example_base 8 1%nat);
      [| reflexivity | reflexivity | exact Hfuel].
    intros i Hi. assert (i = 0%nat) as -> by lia.
    split; [reflexivity |]. exists 5. split; [reflexivity | discriminate].
Qed.

Lemma getTLVRecord_first_match_witness :
  getTLVRecord (V := ValueLenTLV) example_mem 2 1 example_base 8
  = Done {| m_Data := example_base + 6 |} /\
  getTLVRecord (V := ValueLenTLV) example_mem 2 9 example_base 8
  = Done (TLVRecord_ctor NULL).
Proof.
  split.
  - apply (proj2 (proj1 getTLVRecord_first_match
                    ValueLenTLV example_mem 1 example_base 8 1%nat
                    ltac:(intros i Hi; assert (i = 0%nat) as -> by lia;
                          split; [reflexivity |]; exists 3;
                          split; [reflexivity | discriminate])));
      [reflexivity | reflexivity | lia].
  - apply (proj1 (proj1 getTLVRecord_first_match
                    ValueLenTLV example_mem 9 example_base 8 2%nat
                    ltac:(intros i Hi; destruct i as [| [| i]];
                          [split; [reflexivity |]; exists 3;
                           split; [reflexivity | discriminate]
                          |split; [reflexivity |]; exists 1;
                           split; [reflexivity | discriminate]
                          |lia])));
      [reflexivity | lia].
Defined.

(** ** TLVRecordReader: the cached count *)

Lemma getTLVRecordCount_cached :
  forall (V : TLVRecordType) (mem : Memory) (fuel : nat)
         (this : TLVRecordReader) (base len : Z),
    m_RecordCount this <> NO_COUNT ->
    getTLVRecordCount mem fuel this base len = Done (m_RecordCount this, this).
Proof.
  intros V mem fuel this base len H. unfold getTLVRecordCount.
  apply Z.eqb_neq in H. rewrite H. reflexivity.
Qed.

Lemma getTLVRecordCount_scan :
  forall (V : TLVRecordType) (mem : Memory) (fuel : nat)
         (this : TLVRecordReader) (base len : Z) (n : nat),
    m_RecordCount this = NO_COUNT ->
    ends_after mem n base len -> (n <= fuel)%nat ->
    getTLVRecordCount mem fuel this base len
    = Done (Z.of_nat n, {| m_RecordCount := Z.of_nat n |}).
Proof.
  intros V mem fuel this base len n H Hends Hfuel. unfold getTLVRecordCount.
  rewrite H, Z.eqb_refl. cbn [negb].
  change (getFirstTLVRecord base len) with (nth_view mem 0 base len).
  rewrite (getTLVRecordCount_loop_ends mem base len n fuel Hends Hfuel).
  reflexivity.
Qed.

Lemma ends_after_not_NO_COUNT :
  forall (V : TLVRecordType) (mem : Memory) (base len : Z) (n : nat),
    ends_after mem n base len -> Z.of_nat n <> NO_COUNT.
Proof.
  intros V mem base len n Hends.
  pose proof (ends_after_bound mem base len n Hends) as Hb.
  rewrite NO_COUNT_eq. unfold SIZE_MAX. rewrite SIZE_MOD_eq. lia.
Qed.

Lemma changeTLVRecordCount_cached :
  forall (this : TLVRecordReader) (changedBy : Z),
    is_int changedBy ->
    m_RecordCount this <> NO_COUNT ->
    changeTLVRecordCount changedBy this
    = {| m_RecordCount := to_size_t (m_RecordCount this + changedBy) |}.
Proof.
  intros this changedBy Hint H. unfold changeTLVRecordCount.
  apply Z.eqb_neq in H. rewrite H. cbn [negb].
  rewrite (to_int_id _ Hint), to_size_t_add_r. reflexivity.
Qed.

(** C6.  On a reader with a count, [getTLVRecordCount] returns it and leaves
    the reader as it is, so that a second call returns the same.  On a reader
    without one, over a traversal that ends after [n] views, it returns [n]
    and stores it; the next call returns [n] again, on no iteration of the
    loop and whatever the buffer. *)
Theorem getTLVRecordCount_twice :
  forall (V : TLVRecordType) (mem : Memory) (this : TLVRecordReader)
         (base len : Z),
    (m_RecordCount this <> NO_COUNT ->
       forall fuel,
         getTLVRecordCount mem fuel this base len
         = Done (m_RecordCount this, this)) /\
    (m_RecordCount this = NO_COUNT ->
       forall n : nat,
         ends_after mem n base len ->
         forall fuel, (n <= fuel)%nat ->
           let this' := {| m_RecordCount := Z.of_nat n |} in
           getTLVRecordCount mem fuel this base len = Done (Z.of_nat n, this') /\
           forall (V' : TLVRecordType) (mem' : Memory) (fuel' : nat)
                  (base' len' : Z),
             getTLVRecordCount (V := V') mem' fuel' this' base' len'
             = Done (Z.of_nat n, this')).
Proof.
  intros V mem this base len. split.
  - intros H fuel. apply getTLVRecordCount_cached. exact H.
  - intros H n Hends fuel Hfuel. cbv zeta. split.
    + apply getTLVRecordCount_scan; assumption.
    + intros V' mem' fuel' base' len'.
      apply (getTLVRecordCount_cached V' mem' fuel'
               {| m_RecordCount := Z.of_nat n |}).
      cbn [m_RecordCount]. apply (ends_after_not_NO_COUNT V mem base len).
      exact Hends.
Qed.

Lemma example_ends_after_2 :
  ends_after (V := ValueLenTLV) example_mem 2 example_base 8.
Proof.
  split; [reflexivity |].
  intros i Hi. destruct i as [| [| i]]; [reflexivity | reflexivity | lia].
Defined.

Lemma getTLVRecordCount_twice_witness :
  getTLVRecordCount (V := ValueLenTLV) example_mem 2 TLVRecordReader_ctor
    example_base 8
  = Done (2, {| m_RecordCount := 2 |}) /\
  getTLVRecordCount (V := ValueLenTLV) example_mem 0 {| m_RecordCount := 2 |}
    example_base 8
  = Done (2, {| m_RecordCount := 2 |}).
Proof.
  split.
  - apply (proj2 (getTLVRecordCount_twice ValueLenTLV example_mem
                    TLVRecordReader_ctor example_base 8)
                 eq_refl 2%nat example_ends_after_2 2%nat (Nat.le_refl 2)).
  - apply (proj1 (getTLVRecordCount_twice ValueLenTLV example_mem
                    {| m_RecordCount := 2 |} example_base 8)).
    discriminate.
Defined.

(** The end-to-end example: two records, the second one found by its tag
    with an empty value, and no record after it. *)
Example end_to_end :
  let second := {| m_Data := example_base + 6 |} in
  getTLVRecordCount (V := ValueLenTLV) example_mem 2 TLVRecordReader_ctor
    example_base 8
  = Done (2, {| m_RecordCount := 2 |}) /\
  getTLVRecord (V := ValueLenTLV) example_mem 2 1 example_base 8 = Done second /\
  getDataSize (TLVRecordType := ValueLenTLV) example_mem second = 0 /\
  isNull (getNextTLVRecord (V := ValueLenTLV) example_mem second example_base 8)
  = true.
Proof. cbv zeta. repeat split. Qed.

(** C7, as amended.  On a reader with the count [c],
    [changeTLVRecordCount d] stores [c + d] as a [size_t], and the next
    [getTLVRecordCount] returns that value on no iteration of the loop,
    provided the value is not [(size_t)-1]; it is [c + d] itself when that is
    in range.  On a reader without a count the call changes nothing. *)
Theorem changeTLVRecordCount_adds :
  forall (this : TLVRecordReader) (changedBy : Z),
    is_int changedBy ->
    (m_RecordCount this <> NO_COUNT ->
     to_size_t (m_RecordCount this + changedBy) <> NO_COUNT ->
       forall (V : TLVRecordType) (mem : Memory) (fuel : nat) (base len : Z),
         getTLVRecordCount mem fuel (changeTLVRecordCount changedBy this) base len
         = Done (to_size_t (m_RecordCount this + changedBy),
                 {| m_RecordCount := to_size_t (m_RecordCount this + changedBy) |})) /\
    (m_RecordCount this <> NO_COUNT ->
     0 <= m_RecordCount this + changedBy < SIZE_MAX ->
       forall (V : TLVRecordType) (mem : Memory) (fuel : nat) (base len : Z),
         getTLVRecordCount mem fuel (changeTLVRecordCount changedBy this) base len
         = Done (m_RecordCount this + changedBy,
                 {| m_RecordCount := m_RecordCount this + changedBy |})) /\
    (m_RecordCount this = NO_COUNT ->
       changeTLVRecordCount changedBy this = this).
Proof.
  intros this changedBy Hint.
  assert (Hwrap :
    m_RecordCount this <> NO_COUNT ->
    to_size_t (m_RecordCount this + changedBy) <> NO_COUNT ->
    forall (V : TLVRecordType) (mem : Memory) (fuel : nat) (base len : Z),
      getTLVRecordCount mem fuel (changeTLVRecordCount changedBy this) base len
      = Done (to_size_t (m_RecordCount this + changedBy),
              {| m_RecordCount := to_size_t (m_RecordCount this + changedBy) |})).
  { intros Hc Hne V mem fuel base len.
    rewrite (changeTLVRecordCount_cached this changedBy Hint Hc).
    apply (getTLVRecordCount_cached V mem fuel
             {| m_RecordCount := to_size_t (m_RecordCount this + changedBy) |}).
    exact Hne. }
  split; [exact Hwrap | split].
  - intros Hc Hrange.
    assert (Hid : to_size_t (m_RecordCount this + changedBy)
                  = m_RecordCount this + changedBy).
    { apply to_size_t_id. unfold is_size_t. lia. }
    rewrite <- Hid. apply Hwrap; [exact Hc |].
    rewrite Hid, NO_COUNT_eq. lia.
  - intros Hc. unfold changeTLVRecordCount. rewrite Hc, Z.eqb_refl.
    reflexivity.
Qed.

Lemma changeTLVRecordCount_adds_witness :
  getTLVRecordCount (V := ValueLenTLV) example_mem 0
    (changeTLVRecordCount 1 {| m_RecordCount := 2 |}) example_base 8
  = Done (3, {| m_RecordCount := 3 |}) /\
  getTLVRecordCount (V := ValueLenTLV) example_mem 0
    (changeTLVRecordCount (-2) {| m_RecordCount := 2 |}) example_base 8
  = Done (0, {| m_RecordCount := 0 |}) /\
  changeTLVRecordCount 1 TLVRecordReader_ctor = TLVRecordReader_ctor.
Proof.
  split; [| split].
  - apply (proj1 (proj2 (changeTLVRecordCount_adds {| m_RecordCount := 2 |} 1
                           ltac:(vm_compute; split; discriminate)))
             ltac:(discriminate) ltac:(vm_compute; split; [discriminate | reflexivity])
             ValueLenTLV example_mem 0%nat example_base 8).
  - apply (proj1 (changeTLVRecordCount_adds {| m_RecordCount := 2 |} (-2)
                    ltac:(vm_compute; split; discriminate))
             ltac:(discriminate) ltac:(discriminate)
             ValueLenTLV example_mem 0%nat example_base 8).
  - apply (proj2 (proj2 (changeTLVRecordCount_adds TLVRecordReader_ctor 1
                           ltac:(vm_compute; split; discriminate)))).
    reflexivity.
Defined.

(** C7, as stated, fails: on a reader with the count 0,
    [changeTLVRecordCount (-1)] leaves the reader without a count, and the
    next [getTLVRecordCount] walks the buffer again and returns the number of
    its records, 2, which is not [0 + (-1)], in [size_t] or otherwise. *)
Lemma changeTLVRecordCount_minus_one_rescans :
  let this := {| m_RecordCount := 0 |} in
  m_RecordCount this <> NO_COUNT /\
  is_int (-1) /\
  changeTLVRecordCount (-1) this = TLVRecordReader_ctor /\
  getTLVRecordCount (V := ValueLenTLV) example_mem 0
    (changeTLVRecordCount (-1) this) example_base 8 = OutOfFuel /\
  getTLVRecordCount (V := ValueLenTLV) example_mem 2
    (changeTLVRecordCount (-1) this) example_base 8
  = Done (2, {| m_RecordCount := 2 |}) /\
  2 <> 0 + -1 /\
  2 <> to_size_t (0 + -1).
Proof.
  cbv zeta. repeat split; try reflexivity; discriminate.
Qed.

(** C10.  On a reader with the count [c], when [c + d] is [(size_t)-1] as a
    [size_t], [changeTLVRecordCount d] leaves the reader as a new one,
    without a count, and the next [getTLVRecordCount] walks the buffer again:
    it returns the number of views of the traversal, not [c + d], and enters
    its loop whenever the buffer has a record.  For any other [d] the next
    [getTLVRecordCount] returns [c + d], as a [size_t], from the reader. *)
Theorem changeTLVRecordCount_sentinel_collision :
  forall (this : TLVRecordReader) (changedBy : Z),
    is_int changedBy ->
    m_RecordCount this <> NO_COUNT ->
    (to_size_t (m_RecordCount this + changedBy) = NO_COUNT ->
       changeTLVRecordCount changedBy this = TLVRecordReader_ctor /\
       forall (V : TLVRecordType) (mem : Memory) (base len : Z) (n : nat),
         ends_after mem n base len ->
         (forall fuel, (n <= fuel)%nat ->
            getTLVRecordCount mem fuel (changeTLVRecordCount changedBy this)
              base len
            = Done (Z.of_nat n, {| m_RecordCount := Z.of_nat n |})) /\
         Z.of_nat n <> to_size_t (m_RecordCount this + changedBy) /\
         ((0 < n)%nat ->
            getTLVRecordCount mem 0 (changeTLVRecordCount changedBy this)
              base len
            = OutOfFuel)) /\
    (to_size_t (m_RecordCount this + changedBy) <> NO_COUNT ->
       forall (V : TLVRecordType) (mem : Memory) (fuel : nat) (base len : Z),
         getTLVRecordCount mem fuel (changeTLVRecordCount changedBy this) base len
         = Done (to_size_t (m_RecordCount this + changedBy),
                 {| m_RecordCount := to_size_t (m_RecordCount this + changedBy) |})).
Proof.
  intros this changedBy Hint Hc.
  rewrite (changeTLVRecordCount_cached this changedBy Hint Hc). split.
  - intros Hwrap. rewrite Hwrap. split; [reflexivity |].
    intros V mem base len n Hends. split; [| split].
    + intros fuel Hfuel.
      apply (getTLVRecordCount_scan V mem fuel {| m_RecordCount := NO_COUNT |});
        [reflexivity | exact Hends | exact Hfuel].
    + apply (ends_after_not_NO_COUNT V mem base len n Hends).
    + intros Hn. destruct Hends as [_ Hlive]. specialize (Hlive 0%nat Hn).
      unfold getTLVRecordCount. cbn [m_RecordCount]. rewrite Z.eqb_refl.
      cbn [negb getTLVRecordCount_loop]. cbn [nth_view] in Hlive.
      rewrite Hlive. reflexivity.
  - intros Hne V mem fuel base len.
    apply (getTLVRecordCount_cached V mem fuel
             {| m_RecordCount := to_size_t (m_RecordCount this + changedBy) |}).
    exact Hne.
Qed.

Lemma changeTLVRecordCount_sentinel_collision_witness :
  changeTLVRecordCount (-1) {| m_RecordCount := 0 |} = TLVRecordReader_ctor /\
  getTLVRecordCount (V := ValueLenTLV) example_mem 2
    (changeTLVRecordCount (-1) {| m_RecordCount := 0 |}) example_base 8
  = Done (2, {| m_RecordCount := 2 |}) /\
  getTLVRecordCount (V := ValueLenTLV) example_mem 0
    (changeTLVRecordCount (-3) {| m_RecordCount := 5 |}) example_base 8
  = Done (2, {| m_RecordCount := 2 |}).
Proof.
  pose proof (changeTLVRecordCount_sentinel_collision
                {| m_RecordCount := 0 |} (-1)
                ltac:(vm_compute; split; discriminate)
                ltac:(discriminate)) as [Hcollide _].
  specialize (Hcollide eq_refl). destruct Hcollide as [Hctor Hscan].
  split; [exact Hctor | split].
  - apply (proj1 (Hscan ValueLenTLV example_mem example_base 8 2%nat
                    example_ends_after_2)).
    apply Nat.le_refl.
  - apply (proj2 (changeTLVRecordCount_sentinel_collision
                    {| m_RecordCount := 5 |} (-3)
                    ltac:(vm_compute; split; discriminate)
                    ltac:(discriminate))
             ltac:(discriminate) ValueLenTLV example_mem 0%nat example_base 8).
Defined.

(** ** TLVRecordBuilder *)

(** C3, as amended.  [init] and the raw constructor take the length as a
    [uint8_t] and [m_RecValueLen] is one: a length [n] arrives as
    [n mod 256], whatever the body does with it.  With the body of the spec
    the construction never fails with [ValueTooLarge]: it stores the first
    [n mod 256] bytes of the value with the length [n mod 256], which is the
    whole value and its length when that is at most 255. *)
Theorem init_length_is_a_byte :
  forall (recType : Z) (recValue : list Z) (recValueLen : Z),
    Builder.init recType recValue recValueLen
    = inr {| Builder.m_RecValue :=
               firstn (Z.to_nat (recValueLen mod 256)) recValue;
             Builder.m_RecValueLen := recValueLen mod 256;
             Builder.m_RecType := recType mod 256 |} /\
    Builder.init recType recValue recValueLen <> inl Builder.ValueTooLarge /\
    (forall (A : Type) (body : Z -> list Z -> Z -> A),
       Builder.call_raw body recType recValue recValueLen
       = Builder.call_raw body recType recValue (recValueLen mod 256)) /\
    (0 <= recType <= 255 ->
     recValueLen = Z.of_nat (length recValue) ->
     recValueLen <= 255 ->
       Builder.init recType recValue recValueLen
       = inr {| Builder.m_RecValue := recValue;
                Builder.m_RecValueLen := Z.of_nat (length recValue);
                Builder.m_RecType := recType |}).
Proof.
  intros recType recValue recValueLen.
  assert (Hlen : 0 <= recValueLen mod 256 < 256) by (apply Z.mod_pos_bound; lia).
  assert (Hinit :
    Builder.init recType recValue recValueLen
    = inr {| Builder.m_RecValue :=
               firstn (Z.to_nat (recValueLen mod 256)) recValue;
             Builder.m_RecValueLen := recValueLen mod 256;
             Builder.m_RecType := recType mod 256 |}).
  { unfold Builder.init, Builder.call_raw, Builder.init_body, Builder.to_uint8,
      to_unsigned.
    change (2 ^ 8) with 256.
    assert (Hok : (255 <? recValueLen mod 256) = false) by (apply Z.ltb_ge; lia).
    rewrite Hok, !Z.mod_mod by lia. reflexivity. }
  split; [exact Hinit | split; [| split]].
  - rewrite Hinit. discriminate.
  - intros A body. unfold Builder.call_raw, Builder.to_uint8, to_unsigned.
    change (2 ^ 8) with 256. rewrite Z.mod_mod by lia. reflexivity.
  - intros Htype Hwhole Hshort. rewrite Hinit.
    rewrite (Z.mod_small recValueLen 256) by lia.
    rewrite (Z.mod_small recType 256) by lia.
    rewrite Hwhole, Nat2Z.id, firstn_all. reflexivity.
Qed.

Lemma init_length_is_a_byte_witness :
  Builder.init 7 [104; 105] 2
  = inr {| Builder.m_RecValue := [104; 105];
           Builder.m_RecValueLen := 2;
           Builder.m_RecType := 7 |}.
Proof.
  apply (proj2 (proj2 (proj2 (init_length_is_a_byte 7 [104; 105] 2)))
           ltac:(vm_compute; split; discriminate) eq_refl
           ltac:(vm_compute; discriminate)).
Defined.

(** C3, as stated, fails: a value of 300 bytes, passed with its length, is
    not rejected; the builder holds its first 44 bytes and the length 44,
    which is 300 modulo 256. *)
Lemma init_truncates_long_value :
  255 < Z.of_nat (length (repeat 0 300)) /\
  Builder.init 7 (repeat 0 300) (Z.of_nat (length (repeat 0 300)))
  = inr {| Builder.m_RecValue := repeat 0 44;
           Builder.m_RecValueLen := 44;
           Builder.m_RecType := 7 |} /\
  44 = 300 mod 256.
Proof. vm_compute. repeat split. Qed.

(** * Further properties of the reader *)

Ltac closed_range := vm_compute; repeat split; intros; discriminate.

Lemma getNextTLVRecord_in_range_witness :
  isNull (getNextTLVRecord (V := ValueLenTLV) example_mem
            {| m_Data := example_base + 6 |} example_base 8) = true /\
  getRecordBasePtr (getNextTLVRecord (V := ValueLenTLV) example_mem
                      (TLVRecord_ctor example_base) example_base 8)
  = example_base + 0 + 6.
Proof.
  split.
  - apply (proj1 (getNextTLVRecord_in_range ValueLenTLV example_mem
                    {| m_Data := example_base + 6 |} example_base 8
                    eq_refl ltac:(closed_range) ltac:(closed_range)
                    ltac:(closed_range) ltac:(closed_range)
                    ltac:(closed_range) ltac:(closed_range))).
    right. vm_compute. discriminate.
  - apply (proj2 (getNextTLVRecord_in_range ValueLenTLV example_mem
                    (TLVRecord_ctor example_base) example_base 8
                    eq_refl ltac:(closed_range) ltac:(closed_range)
                    ltac:(closed_range) ltac:(closed_range)
                    ltac:(closed_range) ltac:(closed_range))).
    split; vm_compute; [discriminate | reflexivity].
Defined.

Lemma getTLVRecordCount_returns_witness :
  exists n : nat,
    Z.of_nat n <= 8 /\
    forall fuel, (Z.to_nat 8 <= fuel)%nat ->
      getTLVRecordCount (V := FixedSizeTLV 2) tags_mem fuel TLVRecordReader_ctor
        example_base 8
      = Done (Z.of_nat n, {| m_RecordCount := Z.of_nat n |}).
Proof.
  apply (getTLVRecordCount_returns (V := FixedSizeTLV 2) tags_mem example_base 8);
    closed_range.
Defined.

Section InBuffer.

Context {V : TLVRecordType}.
Variable mem : Memory.
Variables tlvDataBasePtr tlvDataLen : Z.

Hypothesis base_range : 0 <= tlvDataBasePtr.
Hypothesis buffer_end : tlvDataBasePtr + tlvDataLen <= SIZE_MOD.
Hypothesis len_range : 0 <= tlvDataLen <= INT_MAX.
Hypothesis size_range : forall r, 1 <= getTotalSize mem r <= INT_MAX.

Local Abbreviation view n := (nth_view mem n tlvDataBasePtr tlvDataLen).

(** On a record of the buffer, [getNextTLVRecord] is the exact comparison. *)
Lemma getNextTLVRecord_in_buffer (r : TLVRecord) :
  isNull r = false ->
  tlvDataBasePtr <= m_Data r < tlvDataBasePtr + tlvDataLen ->
  getNextTLVRecord mem r tlvDataBasePtr tlvDataLen
  = if m_Data r - tlvDataBasePtr + getTotalSize mem r >=? tlvDataLen
    then TLVRecord_ctor NULL
    else {| m_Data := m_Data r + getTotalSize mem r |}.
Proof.
  intros Hlive Hin. specialize (size_range r).
  unfold INT_MAX, INT_BITS in *. rewrite SIZE_MOD_eq in *.
  change (2 ^ (32 - 1) - 1) with 2147483647 in *.
  unfold getNextTLVRecord, next_out_of_bounds, getRecordBasePtr.
  rewrite Hlive.
  assert (Hoff : ptr_diff (m_Data r) tlvDataBasePtr = m_Data r - tlvDataBasePtr).
  { apply to_ptrdiff_id. lia. }
  rewrite Hoff.
  rewrite (to_int_id (getTotalSize mem r))
    by (unfold is_int, INT_MIN, INT_MAX, INT_BITS; simpl; lia).
  rewrite (to_int_id tlvDataLen)
    by (unfold is_int, INT_MIN, INT_MAX, INT_BITS; simpl; lia).
  rewrite to_ptrdiff_id by lia.
  destruct (Z.ltb_spec (m_Data r - tlvDataBasePtr) 0) as [Hneg | _]; [lia |].
  destruct (m_Data r - tlvDataBasePtr + getTotalSize mem r >=? tlvDataLen)
    eqn:Hcmp; [reflexivity |].
  rewrite Z.geb_leb in Hcmp. apply Z.leb_gt in Hcmp.
  rewrite TLVRecord_ctor_eq. unfold ptr_add.
  rewrite (to_size_t_id (getTotalSize mem r))
    by (unfold is_size_t, SIZE_MAX; rewrite SIZE_MOD_eq; lia).
  rewrite to_size_t_id
    by (unfold is_size_t, SIZE_MAX; rewrite SIZE_MOD_eq; lia).
  reflexivity.
Qed.

(** The records of a traversal lie back to back: the first view is at the
    base pointer, every further one starts where the one before ends, and
    each of them starts inside the buffer. *)
Theorem records_back_to_back :
  (isNull (view 0) = false -> m_Data (view 0) = tlvDataBasePtr) /\
  forall k : nat,
    isNull (view (S k)) = false ->
    m_Data (view (S k)) = m_Data (view k) + getTotalSize mem (view k) /\
    tlvDataBasePtr <= m_Data (view k) /\
    m_Data (view (S k)) < tlvDataBasePtr + tlvDataLen.
Proof.
  split.
  - intros H. pose proof (nth_view_in_buffer mem _ _ base_range buffer_end
                            len_range size_range 0 H) as Hb.
    cbn [nth_view] in *. unfold getFirstTLVRecord in *.
    destruct (tlvDataLen =? 0); [discriminate |].
    rewrite TLVRecord_ctor_eq. reflexivity.
  - intros k Hnext.
    pose proof (nth_view_in_buffer mem _ _ base_range buffer_end len_range
                  size_range (S k) Hnext) as Hb.
    assert (Hk : isNull (view k) = false).
    { apply (nth_view_live_before mem _ _ (S k)); [exact Hnext | lia]. }
    pose proof (nth_view_in_buffer mem _ _ base_range buffer_end len_range
                  size_range k Hk) as Hbk.
    cbn [nth_view] in Hnext, Hb |- *.
    rewrite (getNextTLVRecord_in_buffer (view k) Hk) in Hnext, Hb |- * by lia.
    destruct (m_Data (view k) - tlvDataBasePtr + getTotalSize mem (view k)
              >=? tlvDataLen); [discriminate |].
    cbn [m_Data] in *. lia.
Qed.

(** The last record of a traversal reaches the end of the buffer or runs
    past it; nothing requires it to end at the end. *)
Theorem last_record_reaches_end (n : nat) :
  ends_after mem (S n) tlvDataBasePtr tlvDataLen ->
  tlvDataBasePtr <= m_Data (view n) < tlvDataBasePtr + tlvDataLen /\
  m_Data (view n) + getTotalSize mem (view n) >= tlvDataBasePtr + tlvDataLen.
Proof.
  intros [Hend Hlive]. specialize (Hlive n (Nat.lt_succ_diag_r n)).
  pose proof (nth_view_in_buffer mem _ _ base_range buffer_end len_range
                size_range n Hlive) as Hb.
  split; [lia |].
  cbn [nth_view] in Hend.
  rewrite (getNextTLVRecord_in_buffer (view n) Hlive) in Hend by lia.
  destruct (Z.geb_spec (m_Data (view n) - tlvDataBasePtr
                        + getTotalSize mem (view n)) tlvDataLen) as [Hge | Hlt].
  - lia.
  - specialize (size_range (view n)). apply isNull_true in Hend.
    cbn [m_Data] in Hend. unfold NULL in Hend. lia.
Qed.

(** With the bytes of the buffer mapped, [getTLVRecord] returns, and what it
    returns is a null view or a record that starts inside the buffer and has
    the wanted type. *)
Theorem getTLVRecord_returns_in_buffer (recordType : Z) :
  (forall p, tlvDataBasePtr <= p < tlvDataBasePtr + tlvDataLen ->
             exists b, mem p = Some b) ->
  exists r : TLVRecord,
    (forall fuel, (Z.to_nat tlvDataLen <= fuel)%nat ->
       getTLVRecord mem fuel recordType tlvDataBasePtr tlvDataLen = Done r) /\
    (isNull r = true \/
     (tlvDataBasePtr <= m_Data r < tlvDataBasePtr + tlvDataLen /\
      getType mem r = Done recordType)).
Proof.
  intros Hmapped.
  destruct (getTLVRecord_returns mem _ _ base_range buffer_end len_range
              size_range recordType Hmapped) as [r Hr].
  exists r. split; [exact Hr |].
  specialize (Hr (Z.to_nat tlvDataLen) (Nat.le_refl _)).
  unfold getTLVRecord in Hr.
  apply (getTLVRecord_loop_done mem _ _ recordType _ 0) in Hr;
    [| intros i Hi; lia].
  destruct Hr as [n [_ [Heq [Hnull | [Hlive Hty]]]]]; [left; exact Hnull |].
  right. split; [| exact Hty]. subst r.
  pose proof (nth_view_in_buffer mem _ _ base_range buffer_end len_range
                size_range n Hlive). lia.
Qed.

End InBuffer.

Lemma records_back_to_back_witness :
  m_Data (nth_view (V := FixedSizeTLV 2) tags_mem 1 example_base 8)
  = m_Data (nth_view (V := FixedSizeTLV 2) tags_mem 0 example_base 8) + 2.
Proof.
  apply (proj2 (records_back_to_back (V := FixedSizeTLV 2) tags_mem
                  example_base 8 ltac:(closed_range) ltac:(closed_range)
                  ltac:(closed_range) ltac:(closed_range)) 0%nat).
  reflexivity.
Defined.

Lemma last_record_reaches_end_witness :
  m_Data (nth_view (V := FixedSizeTLV 3) tags_mem 2 example_base 8) + 3
  >= example_base + 8.
Proof.
  apply (proj2 (last_record_reaches_end (V := FixedSizeTLV 3) tags_mem
                  example_base 8 ltac:(closed_range) ltac:(closed_range)
                  ltac:(closed_range) ltac:(closed_range) 2%nat
                  ltac:(split; [reflexivity |];
                        intros i Hi; destruct i as [| [| [| i]]];
                        [reflexivity | reflexivity | reflexivity | lia]))).
Defined.

Lemma mem_of_bytes_mapped (base : Z) (bytes : list Z) :
  forall p, base <= p < base + Z.of_nat (length bytes) ->
            exists b, mem_of_bytes base bytes p = Some b.
Proof.
  intros p Hp. unfold mem_of_bytes.
  assert (H1 : (base <=? p) = true) by (apply Z.leb_le; lia).
  assert (H2 : (p <? base + Z.of_nat (length bytes)) = true)
    by (apply Z.ltb_lt; lia).
  rewrite H1, H2. cbn [andb].
  destruct (nth_error bytes (Z.to_nat (p - base))) eqn:E.
  - eexists. reflexivity.
  - apply nth_error_None in E. lia.
Defined.

Lemma getTLVRecord_returns_in_buffer_witness :
  exists r : TLVRecord,
    (forall fuel, (Z.to_nat 8 <= fuel)%nat ->
       getTLVRecord (V := FixedSizeTLV 2) tags_mem fuel 9 example_base 8
       = Done r) /\
    (isNull r = true \/
     (example_base <= m_Data r < example_base + 8 /\
      getType tags_mem r = Done 9)).
Proof.
  apply (getTLVRecord_returns_in_buffer (V := FixedSizeTLV 2) tags_mem
           example_base 8 ltac:(closed_range) ltac:(closed_range)
           ltac:(closed_range) ltac:(closed_range) 9
           (mem_of_bytes_mapped example_base tags_bytes)).
Defined.

(** ** What a returned count tells *)

Section Counting.

Context {V : TLVRecordType}.
Variable mem : Memory.
Variables tlvDataBasePtr tlvDataLen : Z.

Local Abbreviation view n := (nth_view mem n tlvDataBasePtr tlvDataLen).
Local Abbreviation ends n := (ends_after mem n tlvDataBasePtr tlvDataLen).

Lemma getTLVRecordCount_loop_done (fuel : nat) :
  forall (k : nat) (c : Z) (this' : TLVRecordReader),
    (forall i, (i < k)%nat -> isNull (view i) = false) ->
    getTLVRecordCount_loop mem fuel {| m_RecordCount := to_size_t c |}
      (view k) tlvDataBasePtr tlvDataLen = Done this' ->
    exists n : nat,
      (k <= n)%nat /\ ends n /\
      this' = {| m_RecordCount := to_size_t (c + Z.of_nat (n - k)) |}.
Proof.
  induction fuel as [| fuel IH]; intros k c this' Hk Hrun;
    cbn [getTLVRecordCount_loop] in Hrun;
    destruct (isNull (view k)) eqn:Hnull.
  1, 3: injection Hrun as <-; exists k; split; [lia |]; split;
        [split; assumption | rewrite Nat.sub_diag, Z.add_0_r; reflexivity].
  - discriminate.
  - cbn [m_RecordCount] in Hrun.
    replace (to_size_t (to_size_t c + 1)) with (to_size_t (c + 1)) in Hrun.
    2:{ unfold to_size_t, to_unsigned. symmetry. apply Zplus_mod_idemp_l. }
    change (getNextTLVRecord mem (view k) tlvDataBasePtr tlvDataLen)
      with (view (S k)) in Hrun.
    apply IH in Hrun.
    + destruct Hrun as [n [Hn [Hends ->]]]. exists n.
      split; [lia |]. split; [exact Hends |].
      do 2 f_equal. lia.
    + intros i Hi. destruct (Nat.eq_dec i k) as [-> | Hik];
        [exact Hnull | apply Hk; lia].
Qed.

(** A count that [getTLVRecordCount] computes is the number of views of the
    traversal. *)
Lemma getTLVRecordCount_scan_done (fuel : nat) (this : TLVRecordReader)
      (c : Z) (this' : TLVRecordReader) :
  m_RecordCount this = NO_COUNT ->
  getTLVRecordCount mem fuel this tlvDataBasePtr tlvDataLen = Done (c, this') ->
  exists n : nat,
    ends n /\ c = Z.of_nat n /\ this' = {| m_RecordCount := Z.of_nat n |}.
Proof.
  intros Hnone Hrun. unfold getTLVRecordCount in Hrun.
  rewrite Hnone, Z.eqb_refl in Hrun. cbn [negb] in Hrun.
  destruct (getTLVRecordCount_loop mem fuel {| m_RecordCount := 0 |}
              (getFirstTLVRecord tlvDataBasePtr tlvDataLen)
              tlvDataBasePtr tlvDataLen) as [r | |] eqn:Hloop;
    cbn [bind] in Hrun; try discriminate.
  injection Hrun as <- <-.
  change {| m_RecordCount := 0 |} with {| m_RecordCount := to_size_t 0 |}
    in Hloop.
  change (getFirstTLVRecord tlvDataBasePtr tlvDataLen) with (view 0) in Hloop.
  apply getTLVRecordCount_loop_done in Hloop; [| intros i Hi; lia].
  destruct Hloop as [n [_ [Hends ->]]].
  pose proof (ends_after_bound mem _ _ n Hends) as Hb.
  exists n. rewrite Nat.sub_0_r, Z.add_0_l. cbn [m_RecordCount].
  rewrite to_size_t_id by (unfold is_size_t, SIZE_MAX; rewrite SIZE_MOD_eq; lia).
  split; [exact Hends | split; reflexivity].
Qed.

(** Whenever [getTLVRecordCount] returns, the reader holds the returned
    count, which is not [(size_t)-1]; every later call returns it again,
    whatever the buffer has become. *)
Theorem getTLVRecordCount_sets_cache :
  forall (fuel : nat) (this : TLVRecordReader) (c : Z) (this' : TLVRecordReader),
    getTLVRecordCount mem fuel this tlvDataBasePtr tlvDataLen = Done (c, this') ->
    m_RecordCount this' = c /\
    c <> NO_COUNT /\
    forall (V' : TLVRecordType) (mem' : Memory) (fuel' : nat) (base' len' : Z),
      getTLVRecordCount (V := V') mem' fuel' this' base' len' = Done (c, this').
Proof.
  intros fuel this c this' Hrun.
  assert (H : m_RecordCount this' = c /\ c <> NO_COUNT).
  { destruct (Z.eq_dec (m_RecordCount this) NO_COUNT) as [Hnone | Hsome].
    - destruct (getTLVRecordCount_scan_done fuel this c this' Hnone Hrun)
        as [n [Hends [-> ->]]].
      split; [reflexivity |].
      apply (ends_after_not_NO_COUNT V mem _ _ n Hends).
    - rewrite (getTLVRecordCount_cached V mem fuel this _ _ Hsome) in Hrun.
      injection Hrun as <- <-. split; [reflexivity | exact Hsome]. }
  destruct H as [Hc Hne]. split; [exact Hc | split; [exact Hne |]].
  intros V' mem' fuel' base' len'. rewrite <- Hc.
  apply getTLVRecordCount_cached. rewrite Hc. exact Hne.
Qed.

(** The first record is taken as it is: a new reader counts no record
    exactly when the length is 0 or the base pointer is null, and then both
    the count and the search return without a single access to memory. *)
Theorem count_zero_iff_empty :
  (forall (fuel : nat) (c : Z) (this' : TLVRecordReader),
     getTLVRecordCount mem fuel TLVRecordReader_ctor tlvDataBasePtr tlvDataLen
     = Done (c, this') ->
     (c = 0 <-> tlvDataLen = 0 \/ tlvDataBasePtr = NULL)) /\
  (tlvDataLen = 0 \/ tlvDataBasePtr = NULL ->
     forall (fuel : nat) (recordType : Z),
       getTLVRecordCount mem fuel TLVRecordReader_ctor tlvDataBasePtr tlvDataLen
       = Done (0, {| m_RecordCount := 0 |}) /\
       getTLVRecord mem fuel recordType tlvDataBasePtr tlvDataLen
       = Done (TLVRecord_ctor NULL)).
Proof.
  assert (Hfirst : isNull (view 0) = true <->
                   tlvDataLen = 0 \/ tlvDataBasePtr = NULL).
  { cbn [nth_view]. unfold getFirstTLVRecord.
    destruct (Z.eqb_spec tlvDataLen 0) as [H0 | H0].
    - split; [intros _; left; exact H0 | reflexivity].
    - rewrite TLVRecord_ctor_eq. unfold isNull. cbn [m_Data].
      rewrite Z.eqb_eq. split; [intros H; right; exact H | intros [H | H]];
        [contradiction | exact H]. }
  split.
  - intros fuel c this' Hrun.
    destruct (getTLVRecordCount_scan_done fuel TLVRecordReader_ctor c this'
                (eq_refl NO_COUNT) Hrun)
      as [n [[Hend Hlive] [-> _]]].
    rewrite <- Hfirst. split.
    + intros Hn. assert (n = 0%nat) as -> by lia. exact Hend.
    + intros Hnull. destruct n as [| n]; [reflexivity |].
      rewrite (Hlive 0%nat) in Hnull by lia. discriminate.
  - intros Hempty fuel recordType. apply Hfirst in Hempty. split.
    + apply (getTLVRecordCount_scan V mem fuel TLVRecordReader_ctor _ _ 0%nat);
        [reflexivity | split; [exact Hempty | intros i Hi; lia] | lia].
    + unfold getTLVRecord. apply getTLVRecord_loop_null. exact Hempty.
Qed.

(** A record of total size 0 inside the bounds stops the traversal for
    good: the next view is the same view, [getTLVRecordCount] never returns,
    and neither does [getTLVRecord] for a type that no view has. *)
Theorem zero_size_record_never_ends (k : nat) :
  is_size_t tlvDataBasePtr ->
  isNull (view (S k)) = false ->
  getTotalSize mem (view k) = 0 ->
  view (S k) = view k /\
  (forall fuel,
     getTLVRecordCount mem fuel TLVRecordReader_ctor tlvDataBasePtr tlvDataLen
     = OutOfFuel) /\
  (forall recordType,
     (forall i, (i <= k)%nat ->
        exists t, getType mem (view i) = Done t /\ t <> recordType) ->
     forall fuel,
       getTLVRecord mem fuel recordType tlvDataBasePtr tlvDataLen = OutOfFuel).
Proof.
  intros Hbase Hnext Hzero.
  assert (Hk : isNull (view k) = false).
  { apply (nth_view_live_before mem _ _ (S k)); [exact Hnext | lia]. }
  assert (Hfix : view (S k) = view k).
  { pose proof Hnext as H. cbn [nth_view] in H.
    apply getNextTLVRecord_not_null in H. destruct H as [_ [_ [_ Heq]]].
    cbn [nth_view]. rewrite Heq, Hzero. unfold ptr_add, getRecordBasePtr.
    change (to_size_t 0) with 0. rewrite Z.add_0_r.
    assert (Hrange : is_size_t (m_Data (view k))).
    { destruct k as [| k].
      - cbn [nth_view] in *. unfold getFirstTLVRecord in *.
        destruct (tlvDataLen =? 0); [discriminate |].
        rewrite TLVRecord_ctor_eq. exact Hbase.
      - pose proof (nth_view_succ_range mem _ _ k Hk) as Hr.
        unfold is_size_t, SIZE_MAX. rewrite SIZE_MOD_eq. lia. }
    rewrite (to_size_t_id _ Hrange). destruct (view k). reflexivity. }
  assert (Hstay : forall j, view (j + k) = view k).
  { induction j as [| j IH]; [reflexivity |].
    cbn [Nat.add nth_view]. rewrite IH. exact Hfix. }
  assert (Hall : forall i, isNull (view i) = false).
  { intros i. destruct (Nat.le_gt_cases i k) as [Hle | Hgt].
    - apply (nth_view_live_before mem _ _ k); assumption.
    - replace i with ((i - k) + k)%nat by lia. rewrite Hstay. exact Hk. }
  split; [exact Hfix | split].
  - assert (Hloop : forall fuel j this,
              getTLVRecordCount_loop mem fuel this (view j)
                tlvDataBasePtr tlvDataLen = OutOfFuel).
    { induction fuel as [| fuel IH]; intros j this;
        cbn [getTLVRecordCount_loop]; rewrite (Hall j); [reflexivity |].
      apply (IH (S j)). }
    intros fuel. unfold getTLVRecordCount.
    change (negb (m_RecordCount TLVRecordReader_ctor =? NO_COUNT)) with false.
    cbv iota. change (getFirstTLVRecord tlvDataBasePtr tlvDataLen) with (view 0).
    rewrite Hloop. reflexivity.
  - intros recordType Hmis.
    assert (Hmis' : forall i, exists t,
                      getType mem (view i) = Done t /\ t <> recordType).
    { intros i. destruct (Nat.le_gt_cases i k) as [Hle | Hgt].
      - apply Hmis. exact Hle.
      - replace i with ((i - k) + k)%nat by lia. rewrite Hstay.
        apply Hmis. lia. }
    assert (Hloop : forall fuel j,
              getTLVRecord_loop mem fuel recordType (view j)
                tlvDataBasePtr tlvDataLen = OutOfFuel).
    { induction fuel as [| fuel IH]; intros j;
        cbn [getTLVRecord_loop]; rewrite (Hall j); [reflexivity |].
      destruct (Hmis' j) as [t [Ht Hne]]. rewrite Ht. cbn [bind].
      apply Z.eqb_neq in Hne. rewrite Hne. apply (IH (S j)). }
    intros fuel. unfold getTLVRecord. apply (Hloop fuel 0%nat).
Qed.

End Counting.

Lemma getTLVRecordCount_sets_cache_witness :
  m_RecordCount {| m_RecordCount := 2 |} = 2 /\
  2 <> NO_COUNT /\
  forall (V' : TLVRecordType) (mem' : Memory) (fuel' : nat) (base' len' : Z),
    getTLVRecordCount (V := V') mem' fuel' {| m_RecordCount := 2 |} base' len'
    = Done (2, {| m_RecordCount := 2 |}).
Proof.
  apply (getTLVRecordCount_sets_cache (V := ValueLenTLV) example_mem
           example_base 8 2 TLVRecordReader_ctor).
  reflexivity.
Defined.

Lemma count_zero_iff_empty_witness :
  getTLVRecordCount (V := ValueLenTLV) example_mem 0 TLVRecordReader_ctor NULL 8
  = Done (0, {| m_RecordCount := 0 |}) /\
  getTLVRecord (V := ValueLenTLV) example_mem 0 3 NULL 8
  = Done (TLVRecord_ctor NULL).
Proof.
  apply (proj2 (count_zero_iff_empty (V := ValueLenTLV) example_mem NULL 8)).
  right. reflexivity.
Defined.

Lemma zero_size_record_never_ends_witness :
  nth_view (V := FixedSizeTLV 0) example_mem 1 example_base 8
  = nth_view (V := FixedSizeTLV 0) example_mem 0 example_base 8 /\
  getTLVRecordCount (V := FixedSizeTLV 0) example_mem 1000 TLVRecordReader_ctor
    example_base 8
  = OutOfFuel.
Proof.
  pose proof (zero_size_record_never_ends (V := FixedSizeTLV 0)
                example_mem example_base 8 0
                ltac:(closed_range) eq_refl eq_refl) as [Hsame [Hcount _]].
  split; [exact Hsame | apply Hcount].
Defined.

(** ** Adjusting the count *)

(** Two adjustments in a row amount to one by the sum, and an adjustment
    followed by its opposite gives the reader back, as long as the count in
    between is not [(size_t)-1]; when it is, the count is lost and no later
    adjustment brings it back. *)
Theorem changeTLVRecordCount_compose :
  forall (this : TLVRecordReader) (d1 d2 : Z),
    is_int d1 -> is_int d2 ->
    m_RecordCount this <> NO_COUNT ->
    (to_size_t (m_RecordCount this + d1) <> NO_COUNT ->
       (is_int (d1 + d2) ->
          changeTLVRecordCount d2 (changeTLVRecordCount d1 this)
          = changeTLVRecordCount (d1 + d2) this) /\
       (is_size_t (m_RecordCount this) -> d2 = - d1 ->
          changeTLVRecordCount d2 (changeTLVRecordCount d1 this) = this)) /\
    (to_size_t (m_RecordCount this + d1) = NO_COUNT ->
       changeTLVRecordCount d2 (changeTLVRecordCount d1 this)
       = TLVRecordReader_ctor).
Proof.
  intros this d1 d2 H1 H2 Hc.
  rewrite (changeTLVRecordCount_cached this d1 H1 Hc). split.
  - intros Hmid.
    assert (Hsum :
      changeTLVRecordCount d2
        {| m_RecordCount := to_size_t (m_RecordCount this + d1) |}
      = {| m_RecordCount := to_size_t (m_RecordCount this + d1 + d2) |}).
    { rewrite changeTLVRecordCount_cached by assumption. cbn [m_RecordCount].
      f_equal. unfold to_size_t, to_unsigned. apply Zplus_mod_idemp_l. }
    rewrite Hsum. split.
    + intros H12. rewrite (changeTLVRecordCount_cached this _ H12 Hc).
      f_equal. f_equal. lia.
    + intros Hrange ->. replace (m_RecordCount this + d1 + - d1)
        with (m_RecordCount this) by lia.
      rewrite (to_size_t_id _ Hrange). destruct this. reflexivity.
  - intros Hmid. rewrite Hmid. reflexivity.
Qed.

Lemma changeTLVRecordCount_compose_witness :
  changeTLVRecordCount (-1) (changeTLVRecordCount 1 {| m_RecordCount := 2 |})
  = {| m_RecordCount := 2 |} /\
  changeTLVRecordCount 1 (changeTLVRecordCount (-1) {| m_RecordCount := 0 |})
  = TLVRecordReader_ctor.
Proof.
  split.
  - apply (proj2 (proj1 (changeTLVRecordCount_compose {| m_RecordCount := 2 |}
                           1 (-1) ltac:(closed_range) ltac:(closed_range)
                           ltac:(closed_range))
                        ltac:(closed_range))
             ltac:(closed_range) eq_refl).
  - apply (proj2 (changeTLVRecordCount_compose {| m_RecordCount := 0 |}
                    (-1) 1 ltac:(closed_range) ltac:(closed_range)
                    ltac:(closed_range))).
    reflexivity.
Defined.

(** ** Releasing the record data *)

Lemma existsb_filter_out (p : Z) (h : Heap) :
  existsb (Z.eqb p) (filter (fun q => negb (q =? p)) h) = false.
Proof.
  induction h as [| q h IH]; [reflexivity |]. cbn [filter].
  destruct (Z.eqb_spec q p) as [-> | Hne]; cbn [negb].
  - exact IH.
  - cbn [existsb]. rewrite IH.
    destruct (Z.eqb_spec p q) as [-> | _]; [contradiction | reflexivity].
Qed.

(** [purgeRecordData] releases the allocation at the record and nothing
    else, and leaves the record pointing at it: a second call, on the record
    or on a copy of it, releases an allocation that is no longer live. *)
Theorem purgeRecordData_twice :
  forall (r : TLVRecord) (h h' : Heap),
    isNull r = false ->
    purgeRecordData r h = Done h' ->
    (forall q, In q h' <-> In q h /\ q <> m_Data r) /\
    purgeRecordData r h' = Fault (m_Data r) /\
    purgeRecordData (TLVRecord_copy r) h' = Fault (m_Data r) /\
    forall other, purgeRecordData (TLVRecord_assign other r) h' = Fault (m_Data r).
Proof.
  intros r h h' Hlive Hrun.
  assert (Hcopy : TLVRecord_copy r = r) by (destruct r; reflexivity).
  assert (Hassign : forall other, TLVRecord_assign other r = r)
    by (intros other; destruct r; reflexivity).
  rewrite Hcopy. setoid_rewrite Hassign.
  unfold purgeRecordData, delete in *. rewrite Hlive in *. cbn [negb] in *.
  destruct (existsb (Z.eqb (m_Data r)) h); [| discriminate].
  injection Hrun as <-. rewrite existsb_filter_out.
  split; [| repeat split].
  intros q. rewrite filter_In, negb_true_iff, Z.eqb_neq. reflexivity.
Qed.

Lemma purgeRecordData_twice_witness :
  purgeRecordData (TLVRecord_copy (TLVRecord_ctor example_base)) [8192]
  = Fault example_base.
Proof.
  apply (proj1 (proj2 (proj2 (purgeRecordData_twice (TLVRecord_ctor example_base)
                                [example_base; 8192] [8192] eq_refl eq_refl)))).
Defined.

(** ** The range of a value *)

Lemma load_bytes_done (mem : Memory) (n : nat) :
  forall (p : Z) (result : list Z),
    load_bytes mem p n = Done result ->
    length result = n /\ Forall (fun b => exists q, mem q = Some b) result.
Proof.
  induction n as [| n IH]; intros p result Hrun; cbn [load_bytes] in Hrun.
  - injection Hrun as <-. split; [reflexivity | constructor].
  - unfold load in Hrun. destruct (mem p) as [b |] eqn:Hb; [| discriminate].
    cbn [bind] in Hrun.
    destruct (load_bytes mem (p + 1) n) as [bs | |] eqn:Hbs;
      cbn [bind] in Hrun; try discriminate.
    injection Hrun as <-. destruct (IH _ _ Hbs) as [Hlen Hall].
    split; [cbn [length]; f_equal; exact Hlen |].
    constructor; [exists p; exact Hb | exact Hall].
Qed.

(** What [getValueAs<T>] returns is a value of [T]: between 0 and
    [2^bits - 1] for an unsigned [T], between [-2^(bits-1)] and
    [2^(bits-1) - 1] for a signed one. *)
Theorem getValueAs_fits :
  forall (V : TLVRecordType) (mem : Memory) (T : ScalarType) (r : TLVRecord)
         (v : Z),
    (forall q b, mem q = Some b -> 0 <= b < 256) ->
    getValueAs mem T r = Done v ->
    in_range T v.
Proof.
  intros V mem T r v Hbytes Hrun. unfold getValueAs in Hrun.
  destruct (to_size_t (getDataSize mem r) <? Z.of_nat (sizeof T)).
  - injection Hrun as <-. apply in_range_0.
  - destruct (load_bytes mem (getValue r) (sizeof T)) as [bs | |] eqn:Hbs;
      cbn [bind] in Hrun; try discriminate.
    injection Hrun as <-. destruct (load_bytes_done _ _ _ _ Hbs) as [Hlen Hall].
    apply of_bytes_in_range; [| exact Hlen].
    apply Forall_forall. intros b Hb.
    rewrite Forall_forall in Hall. destruct (Hall b Hb) as [q Hq].
    apply (Hbytes q b Hq).
Qed.

Lemma mem_of_bytes_range (base : Z) (bytes : list Z) :
  Forall (fun b => 0 <= b < 256) bytes ->
  forall q b, mem_of_bytes base bytes q = Some b -> 0 <= b < 256.
Proof.
  intros Hall q b Hq. unfold mem_of_bytes in Hq.
  destruct ((base <=? q) && (q <? base + Z.of_nat (length bytes)));
    [| discriminate].
  apply nth_error_In in Hq. rewrite Forall_forall in Hall. apply Hall. exact Hq.
Defined.

Lemma getValueAs_fits_witness :
  in_range Int32 (-1) /\ in_range UInt32 3721182122.
Proof.
  split.
  - apply (getValueAs_fits ValueLenTLV ff_mem Int32 (TLVRecord_ctor example_base)
             (-1)
             (mem_of_bytes_range example_base ff_bytes
                ltac:(repeat constructor; discriminate))
             eq_refl).
  - apply (getValueAs_fits ValueLenTLV example_mem UInt32
             (TLVRecord_ctor example_base) 3721182122
             (mem_of_bytes_range example_base example_bytes
                ltac:(repeat constructor; discriminate))
             eq_refl).
Defined.
